(** * ogbg-mol-hiv_disjoint: molecule classification on OGB mol-hiv

    A shallow embedding of
    [examples/graph_prediction/ogbg-mol-hiv_disjoint.py]: a linear script
    that loads the dataset, splits it, builds an ECC-based network, runs a
    custom training loop and evaluates the result.

    The script is glue between TensorFlow/Keras, NumPy, OGB and Spektral.
    External calls are fields of the class [Libs]; they may raise.  The
    script runs in a small monad that threads the model variables, carries
    an uncaught exception to the end, and records every effect. *)

From Stdlib Require Import String Bool Arith Lia QArith List Permutation.
Import ListNotations.
Open Scope string_scope.
Open Scope nat_scope.
Open Scope list_scope.

Set Implicit Arguments.

(** ** Python-level effects *)

Module Py.

(** Exceptions that reach the script. *)
Inductive exn : Type :=
| IndexError
| ValueError
| LibraryError (msg : string).

Inductive outcome (A : Type) : Type :=
| Ok (a : A)
| Raise (e : exn).
Arguments Ok {A} a.
Arguments Raise {A} e.

Inductive file_op : Type := FOpen | FWrite | FDelete.

Section Monad.

(** [St] is the mutable state, [Line] what [print] shows and [Fn] the
    names of the library entry points. *)
Variables (St Line Fn : Type).

Inductive effect : Type :=
| Print (l : Line)
| Call (f : Fn)
| Raised (e : exn)
| File (op : file_op) (path : string).

Definition trace := list effect.

Definition M (A : Type) : Type := St -> outcome A * St * trace.

Definition ret {A} (a : A) : M A := fun s => (Ok a, s, []).

(** Sequencing.  Python has no handler here: once [m] raises, [f] is
    never run. *)
Definition bind {A B} (m : M A) (f : A -> M B) : M B :=
  fun s =>
    match m s with
    | (Ok a, s1, t1) =>
        match f a s1 with
        | (o, s2, t2) => (o, s2, t1 ++ t2)
        end
    | (Raise e, s1, t1) => (Raise e, s1, t1)
    end.

(** A library call: the call is recorded, and an exception it raises is
    recorded as raised and becomes the outcome. *)
Definition call {A} (f : Fn) (r : outcome A) : M A :=
  fun s =>
    match r with
    | Ok a => (Ok a, s, [Call f])
    | Raise e => (Raise e, s, [Call f; Raised e])
    end.

Definition print (l : Line) : M unit := fun s => (Ok tt, s, [Print l]).

Definition get : M St := fun s => (Ok s, s, []).

Definition put (s : St) : M unit := fun _ => (Ok tt, s, []).

(** What appears on standard output. *)
Fixpoint stdout (t : trace) : list Line :=
  match t with
  | [] => []
  | Print l :: t' => l :: stdout t'
  | _ :: t' => stdout t'
  end.

Definition is_raised (ev : effect) : bool :=
  match ev with Raised _ => true | _ => false end.

Definition is_file (ev : effect) : bool :=
  match ev with File _ _ => true | _ => false end.

(** No exception was raised along [t]. *)
Definition fault_free (t : trace) : Prop :=
  forallb (fun ev => negb (is_raised ev)) t = true.

(** No file was opened, written or deleted along [t]. *)
Definition file_free (t : trace) : Prop :=
  forallb (fun ev => negb (is_file ev)) t = true.

End Monad.

Arguments Print {Line Fn} l.
Arguments Call {Line Fn} f.
Arguments Raised {Line Fn} e.
Arguments File {Line Fn} op path.
Arguments ret {St Line Fn A} a.
Arguments bind {St Line Fn A B} m f.
Arguments call {St Line Fn A} f r.
Arguments print {St Line Fn} l.
Arguments get {St Line Fn}.
Arguments put {St Line Fn} s.
Arguments stdout {Line Fn} t.
Arguments is_raised {Line Fn} ev.
Arguments is_file {Line Fn} ev.
Arguments fault_free {Line Fn} t.
Arguments file_free {Line Fn} t.

End Py.

Import Py.

Declare Scope py_scope.
Delimit Scope py_scope with py.
Notation "x <- c1 ;; c2" := (bind c1 (fun x => c2))
  (at level 100, c1 at next level, right associativity) : py_scope.
Notation "' p <- c1 ;; c2" := (bind c1 (fun p => c2))
  (at level 100, p pattern, c1 at next level, right associativity) : py_scope.
Notation "c1 ;; c2" := (bind c1 (fun _ => c2))
  (at level 100, right associativity) : py_scope.

(** ** Spektral data model: graphs, disjoint batches, loaders

    The script imports [DisjointLoader] from [spektral.data] and indexes a
    [spektral] dataset; neither module is among the sources.  This module
    models them from the specification's data model. *)

Module Spektral.

Section Data.

(** Entries of the feature and label arrays. *)
Variable R : Type.

Definition Row := list R.

(** Modelled from the spec: the "sparse adjacency" of a graph, not among
    the sources; a square matrix in coordinate form. *)
Record sparse : Type := mk_sparse {
  size : nat;
  entries : list (nat * nat * R)
}.

(** Modelled from the spec: the graph type of [spektral.data] is not
    among the sources.  "a labeled molecular graph (node feature matrix,
    edge feature matrix, sparse adjacency, graph-level label)". *)
Record Graph : Type := mk_graph {
  node_features : list Row;
  adjacency : sparse;
  edge_features : list Row;
  label : Row
}.

Definition Dataset := list Graph.

Definition n_nodes (g : Graph) : nat := length (node_features g).

(** The adjacency of a graph is square over its nodes and every entry
    lies inside it. *)
Definition wf_graph (g : Graph) : Prop :=
  size (adjacency g) = n_nodes g /\
  Forall (fun en => fst (fst en) < n_nodes g /\ snd (fst en) < n_nodes g)
         (entries (adjacency g)).

(** Modelled from the spec: what a loader yields, not among the sources.
    The model inputs [(X, A, E, I)] of one batch (line 64), and the batch
    itself with its targets. *)
Record Inputs : Type := mk_inputs {
  X_in : list Row;
  A_in : sparse;
  E_in : list Row;
  I_in : list nat
}.

Definition Batch := (Inputs * list Row)%type.

(** Number of nodes of the first [k] graphs: where block [k] starts. *)
Definition offset (gs : list Graph) (k : nat) : nat :=
  list_sum (map n_nodes (firstn k gs)).

Definition shift (o : nat) (en : nat * nat * R) : nat * nat * R :=
  let '(r, c, v) := en in (o + r, o + c, v).

(** What it is for [batch] to be the disjoint union of the graphs [gs]:
    node features, edge features and labels follow one another; the
    adjacency is square over all the nodes; the index vector has one
    entry per node, which for a node of the [k]-th graph is [k]; the
    adjacency holds exactly the entries of the graphs, each graph moved to
    its own diagonal block; so no entry links nodes of different graphs. *)
Definition disjoint_union (gs : list Graph) (batch : Batch) : Prop :=
  X_in (fst batch) = concat (map node_features gs) /\
  E_in (fst batch) = concat (map edge_features gs) /\
  size (A_in (fst batch)) = length (X_in (fst batch)) /\
  snd batch = map label gs /\
  length (I_in (fst batch)) = length (X_in (fst batch)) /\
  (forall k g r,
      nth_error gs k = Some g -> r < n_nodes g ->
      nth_error (I_in (fst batch)) (offset gs k + r) = Some k) /\
  (forall r c v,
      In (r, c, v) (entries (A_in (fst batch))) <->
      exists k g r0 c0,
        nth_error gs k = Some g /\
        In (r0, c0, v) (entries (adjacency g)) /\
        r = offset gs k + r0 /\ c = offset gs k + c0) /\
  (forall r c v,
      In (r, c, v) (entries (A_in (fst batch))) ->
      exists k, nth_error (I_in (fst batch)) r = Some k /\
                nth_error (I_in (fst batch)) c = Some k).

(** Modelled from the spec: the batching of [spektral.data] is not among
    the sources.  "a batch of such graphs disjointly unioned into a single
    block-diagonal adjacency": the entries of graph [k] are moved down the
    diagonal by the number of nodes before it. *)
Fixpoint block_diag (o : nat) (gs : list Graph) : list (nat * nat * R) :=
  match gs with
  | [] => []
  | g :: gs' =>
      map (shift o) (entries (adjacency g))
        ++ block_diag (o + size (adjacency g)) gs'
  end.

(** Modelled from the spec: "an index vector assigning nodes to graphs":
    [n_nodes g] copies of the position of [g] in the batch, graph after
    graph. *)
Fixpoint index_vector (k : nat) (gs : list Graph) : list nat :=
  match gs with
  | [] => []
  | g :: gs' => repeat k (n_nodes g) ++ index_vector (S k) gs'
  end.

(** Modelled from the spec: the disjoint union of a list of graphs, with
    the labels stacked as the target. *)
Definition collate (gs : list Graph) : Batch :=
  ({| X_in := concat (map node_features gs);
      A_in := {| size := list_sum (map (fun g => size (adjacency g)) gs);
                 entries := block_diag 0 gs |};
      E_in := concat (map edge_features gs);
      I_in := index_vector 0 gs |},
   map label gs).

(** Modelled from the spec: part of [DisjointLoader], not among the
    sources.  Number of batches needed for [n] graphs, [batch_size] at a
    time, for a positive [batch_size]. *)
Definition n_batches (batch_size n : nat) : nat :=
  (n + batch_size - 1) / batch_size.

(** Modelled from the spec: part of [DisjointLoader], not among the
    sources.  The consecutive slices [l[k*batch_size : (k+1)*batch_size]]. *)
Definition slices {T} (batch_size : nat) (l : list T) : list (list T) :=
  map (fun k => firstn batch_size (skipn (k * batch_size) l))
      (seq 0 (n_batches batch_size (length l))).

(** Modelled from the spec: the loader object, not among the sources;
    the batches it yields when iterated, and its [steps_per_epoch]
    attribute (line 96). *)
Record Loader : Type := mk_loader {
  batches : list Batch;
  steps_per_epoch : nat
}.

(** Modelled from the spec: [spektral.data.DisjointLoader] is not among
    the sources.  It passes [epochs] times over the dataset, each time in
    the order [shuffle k] gives for pass [k], and yields the disjoint union
    of every [batch_size] consecutive graphs. *)
Definition DisjointLoader (shuffle : nat -> Dataset -> Dataset)
    (dataset : Dataset) (batch_size epochs : nat) : Loader :=
  {| batches :=
       flat_map (fun k => map collate (slices batch_size (shuffle k dataset)))
                (seq 0 epochs);
     steps_per_epoch := n_batches batch_size (length dataset) |}.

(** Modelled from the spec: indexing a dataset by a list of positions
    ("split") is not among the sources.  It selects the graphs at these
    positions, and a position outside the dataset raises. *)
Fixpoint getitem (dataset : Dataset) (idx : list nat) : outcome Dataset :=
  match idx with
  | [] => Ok []
  | i :: idx' =>
      match nth_error dataset i, getitem dataset idx' with
      | Some g, Ok gs => Ok (g :: gs)
      | None, _ => Raise IndexError
      | _, Raise ex => Raise ex
      end
  end.

End Data.

Arguments mk_sparse {R} size entries.
Arguments mk_graph {R} node_features adjacency edge_features label.
Arguments mk_inputs {R} X_in A_in E_in I_in.
Arguments mk_loader {R} batches steps_per_epoch.

End Spektral.

Import Spektral.

(** ** The libraries the script imports *)

(** The three index lists returned by [get_idx_split]. *)
Record Split : Type := mk_split {
  train : list nat;
  valid : list nat;
  test : list nat
}.

(** The entry points of TensorFlow/Keras, NumPy and OGB that the script
    calls, with the values they work on, and those of Spektral that only
    pass data on ([OGB] and the three dimensions of a dataset).  They are
    opaque: the script is verified for every implementation of them.  A
    call either returns or raises.  A forward pass reads the variables
    and writes nothing: the layers of this network keep no other state. *)
Class Libs : Type := {
  (** array entries *)
  elt : Type;
  (** scalar losses, with Python's [0], [+] and [/ n] on them *)
  Loss : Type;
  zero : Loss;
  add : Loss -> Loss -> Loss;
  div : Loss -> nat -> Loss;
  (** values of [model.trainable_variables], state of the optimizer,
      gradients *)
  Vars : Type;
  Slots : Type;
  Grads : Type;
  OgbDataset : Type;
  EvaluatorT : Type;
  (** the ['rocauc'] entry of the evaluator's result *)
  Score : Type;
  GraphPropPredDataset : string -> outcome OgbDataset;
  OGB : OgbDataset -> outcome (Dataset elt);
  n_node_features : Dataset elt -> nat;
  n_edge_features : Dataset elt -> nat;
  n_labels : Dataset elt -> nat;
  get_idx_split : OgbDataset -> outcome Split;
  (** the order the [k]-th draw of NumPy's generator puts a dataset in *)
  shuffle : nat -> Dataset elt -> Dataset elt;
  shuffle_perm : forall k d, Permutation (shuffle k d) d;
  (** [Input], [ECCConv], [GlobalSumPool], [Dense] and [Model] together:
      the initial variables of the network for the given dimensions *)
  Model : nat -> nat -> nat -> outcome Vars;
  Adam : Q -> outcome Slots;
  (** [model(inputs, training=...)]: one forward pass *)
  model : Vars -> bool -> Inputs elt -> outcome (list (Row elt));
  loss_fn : list (Row elt) -> list (Row elt) -> outcome Loss;
  model_losses : Vars -> list Loss;
  (** [tape.gradient(loss, model.trainable_variables)] for the loss of a
      batch at the given variables *)
  gradient : Vars -> Inputs elt -> list (Row elt) -> outcome Grads;
  apply_gradients : Slots -> Vars -> Grads -> outcome (Slots * Vars);
  Evaluator : string -> outcome EvaluatorT;
  eval : EvaluatorT -> list (Row elt) -> list (Row elt) -> outcome Score
}.

(** Names of the library entry points, with the hyper-parameters they
    receive. *)
Inductive libfn : Type :=
| FGraphPropPredDataset (name : string)
| FOGB
| Fget_idx_split
| Fgetitem
| FDisjointLoader (batch_size epochs : nat)
| FModel
| FAdam (lr : Q)
| FBinaryCrossentropy
| Fmodel (training : bool)
| Floss_fn
| Fgradient
| Fapply_gradients
| FEvaluator (name : string)
| Fvstack
| Feval.

(** ** The script *)

Section Script.

Context {L : Libs}.

(** The model and the optimizer, as the script mutates them. *)
Record tf_state : Type := mk_tf {
  variables : Vars;
  slots : Slots
}.

(** The lines the script prints. *)
Inductive line : Type :=
| Text (s : string)
| LossLine (v : Loss)
| DoneLine (test_loss : Loss) (rocauc : Score).

Definition PyM (T : Type) : Type := M tf_state line libfn T.

Definition event : Type := effect line libfn.

Open Scope py_scope.

(** *** PARAMETERS *)

Definition learning_rate : Q := 1 # 1000.
Definition epochs : nat := 10.
Definition batch_size : nat := 32.

(** *** LOAD DATA *)

Definition dataset_name : string := "ogbg-molhiv".

(** Lines 42-48: the three splits and the two loaders.  The training
    loader draws its orders first, the test loader after it. *)
Definition train_test_split (dataset : Dataset elt) (idx : Split)
  : PyM (Loader elt * Loader elt) :=
  let '(idx_tr, idx_va, idx_te) := (train idx, valid idx, test idx) in
  dataset_tr <- call Fgetitem (getitem dataset idx_tr) ;;
  dataset_va <- call Fgetitem (getitem dataset idx_va) ;;
  dataset_te <- call Fgetitem (getitem dataset idx_te) ;;
  loader_tr <- call (FDisjointLoader batch_size epochs)
                 (Ok (DisjointLoader shuffle dataset_tr batch_size epochs)) ;;
  loader_te <- call (FDisjointLoader batch_size 1)
                 (Ok (DisjointLoader (fun k => shuffle (epochs + k))
                        dataset_te batch_size 1)) ;;
  ret (loader_tr, loader_te).

(** *** BUILD MODEL *)

(** Lines 36-38 and 53-66; [F], [S] and [n_out] are read from the
    dataset and only used here. *)
Definition build_model (dataset : Dataset elt) : PyM unit :=
  let F := n_node_features dataset in
  let S := n_edge_features dataset in
  let n_out := n_labels dataset in
  vars <- call FModel (Model F S n_out) ;;
  opt <- call (FAdam learning_rate) (Adam learning_rate) ;;
  call FBinaryCrossentropy (Ok tt) ;;
  put {| variables := vars; slots := opt |}.

(** *** FIT MODEL *)

Definition train_step (batch : Batch elt) : PyM Loss :=
  let '(inputs, target) := batch in
  s <- get ;;
  predictions <- call (Fmodel true) (model (variables s) true inputs) ;;
  loss <- call Floss_fn (loss_fn target predictions) ;;
  let loss := add loss (fold_left add (model_losses (variables s)) zero) in
  gradients <- call Fgradient (gradient (variables s) inputs target) ;;
  '(opt, vars) <- call Fapply_gradients
                    (apply_gradients (slots s) (variables s) gradients) ;;
  put {| variables := vars; slots := opt |} ;;
  ret loss.

(** The [for batch in loader_tr] loop, lines 92-99, from the given
    values of [current_batch] and [model_loss]; it returns their final
    values. *)
Fixpoint fit_loop (steps_per_epoch : nat) (bs : list (Batch elt))
    (current_batch : nat) (model_loss : Loss) : PyM (nat * Loss) :=
  match bs with
  | [] => ret (current_batch, model_loss)
  | batch :: rest =>
      outs <- train_step batch ;;
      let model_loss := add model_loss outs in
      let current_batch := current_batch + 1 in
      if current_batch =? steps_per_epoch then
        print (LossLine (div model_loss steps_per_epoch)) ;;
        fit_loop steps_per_epoch rest 0 zero
      else
        fit_loop steps_per_epoch rest current_batch model_loss
  end.

Definition fit_model (loader_tr : Loader elt) : PyM (nat * Loss) :=
  print (Text "Fitting model") ;;
  fit_loop (steps_per_epoch loader_tr) (batches loader_tr) 0 zero.

(** *** EVALUATE MODEL *)

(** All rows have the width of the first. *)
Definition same_width (rows : list (Row elt)) : bool :=
  match rows with
  | [] => true
  | r :: rest => forallb (fun r' => length r' =? length r) rest
  end.

(** [np.vstack]: the rows of the blocks one under the other; NumPy
    refuses an empty list of blocks, and blocks whose rows differ in
    width. *)
Definition vstack (blocks : list (list (Row elt))) : outcome (list (Row elt)) :=
  match blocks with
  | [] => Raise ValueError
  | _ :: _ =>
      if same_width (concat blocks) then Ok (concat blocks)
      else Raise ValueError
  end.

(** The [for batch in loader_te] loop, lines 108-112, from the given
    lists [y_true] and [y_pred]. *)
Fixpoint eval_loop (bs : list (Batch elt))
    (y_true y_pred : list (list (Row elt)))
  : PyM (list (list (Row elt)) * list (list (Row elt))) :=
  match bs with
  | [] => ret (y_true, y_pred)
  | batch :: rest =>
      let '(inputs, target) := batch in
      s <- get ;;
      p <- call (Fmodel false) (model (variables s) false inputs) ;;
      eval_loop rest (y_true ++ [target]) (y_pred ++ [p])
  end.

Definition evaluate_model (loader_te : Loader elt) : PyM unit :=
  print (Text "Testing model") ;;
  evaluator <- call (FEvaluator dataset_name) (Evaluator dataset_name) ;;
  '(y_true, y_pred) <- eval_loop (batches loader_te) [] [] ;;
  y_true <- call Fvstack (vstack y_true) ;;
  y_pred <- call Fvstack (vstack y_pred) ;;
  model_loss <- call Floss_fn (loss_fn y_true y_pred) ;;
  ogb_score <- call Feval (eval evaluator y_true y_pred) ;;
  print (DoneLine model_loss ogb_score).

(** *** The whole module *)

(** Everything after [idx = ogb_dataset.get_idx_split()]. *)
Definition after_split (dataset : Dataset elt) (idx : Split) : PyM unit :=
  '(loader_tr, loader_te) <- train_test_split dataset idx ;;
  build_model dataset ;;
  fit_model loader_tr ;;
  evaluate_model loader_te.

Definition script : PyM unit :=
  ogb_dataset <- call (FGraphPropPredDataset dataset_name)
                   (GraphPropPredDataset dataset_name) ;;
  dataset <- call FOGB (OGB ogb_dataset) ;;
  idx <- call Fget_idx_split (get_idx_split ogb_dataset) ;;
  after_split dataset idx.

End Script.

(** ** Vocabulary of the statements *)

Section Vocabulary.

Context {L : Libs}.

(** The successive [train_step] calls on the batches [bs] from state [s]:
    the losses they return and the state they leave, when none raises. *)
Fixpoint train_steps (bs : list (Batch elt)) (s : tf_state)
  : option (list Loss * tf_state) :=
  match bs with
  | [] => Some ([], s)
  | b :: rest =>
      match train_step b s with
      | (Ok l, s1, _) =>
          match train_steps rest s1 with
          | Some (ls, s') => Some (l :: ls, s')
          | None => None
          end
      | (Raise _, _, _) => None
      end
  end.

(** The [train_step] calls on [bs] from state [s] up to the first one
    that raises: the losses returned before it and the state reached. *)
Fixpoint train_prefix (bs : list (Batch elt)) (s : tf_state)
  : list Loss * tf_state :=
  match bs with
  | [] => ([], s)
  | b :: rest =>
      match train_step b s with
      | (Ok l, s1, _) =>
          (l :: fst (train_prefix rest s1), snd (train_prefix rest s1))
      | (Raise _, s1, _) => ([], s1)
      end
  end.

(** Python's [sum] of a block of losses, from the integer [0]. *)
Definition total (ls : list Loss) : Loss := fold_left add ls zero.

(** The mean of each full block of [steps] consecutive losses. *)
Definition epoch_means (steps : nat) (ls : list Loss) : list Loss :=
  map (fun k => div (total (firstn steps (skipn (k * steps) ls))) steps)
      (seq 0 (length ls / steps)).

(** The loss values among printed lines. *)
Fixpoint printed_losses (out : list line) : list Loss :=
  match out with
  | [] => []
  | LossLine v :: out' => v :: printed_losses out'
  | _ :: out' => printed_losses out'
  end.

(** The forward passes of the evaluation loop on [bs] at variables [v]. *)
Fixpoint predictions (v : Vars) (bs : list (Batch elt))
  : option (list (list (Row elt))) :=
  match bs with
  | [] => Some []
  | b :: rest =>
      match model v false (fst b), predictions v rest with
      | Ok p, Some ps => Some (p :: ps)
      | _, _ => None
      end
  end.

(** Row at which block [j] starts once the blocks are stacked. *)
Definition row_offset {T} (blocks : list (list T)) (j : nat) : nat :=
  length (concat (firstn j blocks)).

(** Events of the training step and of the evaluation forward pass. *)
Definition is_train_call (ev : event) : bool :=
  match ev with
  | Call (Fmodel true) | Call Fgradient | Call Fapply_gradients => true
  | _ => false
  end.

Definition is_eval_forward (ev : event) : bool :=
  match ev with Call (Fmodel false) => true | _ => false end.

Definition is_step_done (ev : event) : bool :=
  match ev with Call Fapply_gradients => true | _ => false end.

(** The alphabets of the four phases that have effects: the calls and
    prints each phase makes, with the constants they receive.  An uncaught
    exception may end any of them. *)
Definition load_event (ev : event) : Prop :=
  match ev with
  | Call (FGraphPropPredDataset name) => name = dataset_name
  | Call (FDisjointLoader b n) => b = batch_size /\ (n = epochs \/ n = 1)
  | Call FOGB | Call Fget_idx_split | Call Fgetitem | Raised _ => True
  | _ => False
  end.

Definition build_event (ev : event) : Prop :=
  match ev with
  | Call (FAdam lr) => lr = learning_rate
  | Call FModel | Call FBinaryCrossentropy | Raised _ => True
  | _ => False
  end.

Definition fit_event (ev : event) : Prop :=
  match ev with
  | Print (Text t) => t = "Fitting model"
  | Print (LossLine _)
  | Call (Fmodel true) | Call Floss_fn | Call Fgradient
  | Call Fapply_gradients | Raised _ => True
  | _ => False
  end.

Definition evaluate_event (ev : event) : Prop :=
  match ev with
  | Print (Text t) => t = "Testing model"
  | Call (FEvaluator name) => name = dataset_name
  | Print (DoneLine _ _)
  | Call (Fmodel false) | Call Fvstack
  | Call Floss_fn | Call Feval | Raised _ => True
  | _ => False
  end.

(** The calls of a data-loading phase that completes (lines 32-48) and
    of a model-building phase that completes (lines 53-66), in order. *)
Definition load_calls : list event :=
  [Call (FGraphPropPredDataset dataset_name); Call FOGB; Call Fget_idx_split;
   Call Fgetitem; Call Fgetitem; Call Fgetitem;
   Call (FDisjointLoader batch_size epochs); Call (FDisjointLoader batch_size 1)].

Definition build_calls : list event :=
  [Call FModel; Call (FAdam learning_rate); Call FBinaryCrossentropy].


(** The hyper-parameters an event carries are the module constants. *)
Definition configured (ev : event) : Prop :=
  match ev with
  | Call (FGraphPropPredDataset name) | Call (FEvaluator name) =>
      name = dataset_name
  | Call (FAdam lr) => lr = learning_rate
  | Call (FDisjointLoader b n) => b = batch_size /\ (n = epochs \/ n = 1)
  | _ => True
  end.

(** A printed training loss or final result. *)
Definition is_result_line (l : line) : bool :=
  match l with
  | LossLine _ | DoneLine _ _ => true
  | Text _ => false
  end.

(** A line the script may print: a result, or one of its two banners. *)
Definition is_output_line (l : line) : Prop :=
  match l with
  | Text t => t = "Fitting model" \/ t = "Testing model"
  | LossLine _ | DoneLine _ _ => True
  end.

(** An exception, once raised, is the last thing that happens and is the
    outcome; a run that returns has raised none. *)
Definition uncaught {T} (o : outcome T) (tr : list event) : Prop :=
  match o with
  | Ok _ => fault_free tr
  | Raise ex => exists pre, tr = pre ++ [Raised ex] /\ fault_free pre
  end.

(** Every run of [m] stays inside the alphabet [P] and leaves its
    exception uncaught. *)
Definition runs_in {T} (P : event -> Prop) (m : PyM T) : Prop :=
  forall s o s' tr, m s = (o, s', tr) -> Forall P tr /\ uncaught o tr.

End Vocabulary.

(** ** A small implementation of the libraries

    Integer arithmetic stands for the tensors; it is used to run the
    script on concrete molecules. *)

Module Toy.

Open Scope Z_scope.

(** A two-atom molecule with one bond. *)
Definition molecule (k : Z) : Graph Z :=
  {| node_features := [[k]; [k + 1]];
     adjacency :=
       {| size := 2; entries := [(0%nat, 1%nat, 1); (1%nat, 0%nat, 1)] |};
     edge_features := [[1]; [1]];
     label := [k mod 2] |}.

Definition molecules : Dataset Z :=
  [molecule 0; molecule 1; molecule 2; molecule 3; molecule 4].

Definition width (d : list (Row Z)) : nat :=
  match d with
  | [] => 0%nat
  | r :: _ => length r
  end.

Definition flip (k : nat) (d : Dataset Z) : Dataset Z :=
  if Nat.odd k then rev d else d.

Definition flip_perm (k : nat) (d : Dataset Z) : Permutation (flip k d) d :=
  match Nat.odd k as b return Permutation (if b then rev d else d) d with
  | true => Permutation_sym (Permutation_rev d)
  | false => Permutation_refl d
  end.

Definition head_sum (p : list (Row Z)) : Z :=
  fold_right (fun r acc => hd 0 r + acc) 0 p.

Definition libs : Libs :=
  {| elt := Z;
     Loss := Z;
     zero := 0;
     add := Z.add;
     div := fun l n => l / Z.of_nat n;
     Vars := Z;
     Slots := nat;
     Grads := Z;
     OgbDataset := Dataset Z;
     EvaluatorT := unit;
     Score := Q;
     GraphPropPredDataset := fun name =>
       if String.eqb name "ogbg-molhiv" then Ok molecules
       else Raise (LibraryError "unknown dataset");
     OGB := fun d => Ok d;
     n_node_features := fun d => match d with [] => 0%nat | g :: _ => width (node_features g) end;
     n_edge_features := fun d => match d with [] => 0%nat | g :: _ => width (edge_features g) end;
     n_labels := fun d => match d with [] => 0%nat | g :: _ => length (label g) end;
     get_idx_split := fun _ =>
       Ok {| train := [0; 1; 2]%nat; valid := [3%nat]; test := [4%nat] |};
     shuffle := flip;
     shuffle_perm := flip_perm;
     Model := fun _ _ _ => Ok 8;
     Adam := fun _ => Ok 0%nat;
     model := fun v _ inputs =>
       Ok (map (fun k => [v + Z.of_nat k]) (nodup Nat.eq_dec (I_in inputs)));
     loss_fn := fun target p =>
       if (length target =? length p)%nat then Ok (head_sum p)
       else Raise (LibraryError "shapes differ");
     model_losses := fun _ => [];
     gradient := fun _ _ _ => Ok 1;
     apply_gradients := fun opt v g => Ok (S opt, v - g);
     Evaluator := fun _ => Ok tt;
     eval := fun _ _ _ => Ok (1 # 2)%Q |}.

(** The same libraries with a dataset that cannot be found. *)
Definition offline : Libs :=
  {| elt := Z; Loss := Z; zero := 0; add := Z.add;
     div := fun l n => l / Z.of_nat n;
     Vars := Z; Slots := nat; Grads := Z;
     OgbDataset := Dataset Z; EvaluatorT := unit; Score := Q;
     GraphPropPredDataset := fun _ => Raise (LibraryError "no dataset");
     OGB := @OGB libs;
     n_node_features := @n_node_features libs;
     n_edge_features := @n_edge_features libs;
     n_labels := @n_labels libs;
     get_idx_split := @get_idx_split libs;
     shuffle := flip;
     shuffle_perm := flip_perm;
     Model := @Model libs;
     Adam := @Adam libs;
     model := @model libs;
     loss_fn := @loss_fn libs;
     model_losses := @model_losses libs;
     gradient := @gradient libs;
     apply_gradients := @apply_gradients libs;
     Evaluator := @Evaluator libs;
     eval := @eval libs |}.

Definition init : @tf_state libs := @mk_tf libs 0 0%nat.

Definition init_offline : @tf_state offline := @mk_tf offline 0 0%nat.

(** Forty molecules, more than one batch of the script holds. *)
Definition crowd : Dataset Z :=
  map (fun k => molecule (Z.of_nat k)) (seq 0 40).

(** Three passes over three molecules, two at a time. *)
Definition loader : Loader Z := DisjointLoader flip (firstn 3 molecules) 2 3.

End Toy.

(** ** Running monadic code *)

Section Runs.

Variables (St Line Fn : Type).

Lemma bind_inv {T U} (m : M St Line Fn T) (f : T -> M St Line Fn U) s o s' tr :
  bind m f s = (o, s', tr) ->
  (exists ex, m s = (Raise ex, s', tr) /\ o = Raise ex) \/
  (exists v s1 t1 t2,
      m s = (Ok v, s1, t1) /\ f v s1 = (o, s', t2) /\ tr = t1 ++ t2).
Proof.
  unfold bind. destruct (m s) as [[[v | ex] s1] t1].
  - destruct (f v s1) as [[o2 s2] t2] eqn:Ef. intros H.
    injection H as <- <- <-. right. exists v, s1, t1, t2. auto.
  - intros H. injection H as <- <- <-. left. exists ex. auto.
Qed.

Lemma bind_ok {T U} (m : M St Line Fn T) (f : T -> M St Line Fn U)
    s v s1 t1 o s2 t2 :
  m s = (Ok v, s1, t1) -> f v s1 = (o, s2, t2) ->
  bind m f s = (o, s2, t1 ++ t2).
Proof. intros H1 H2. unfold bind. rewrite H1, H2. reflexivity. Qed.

Lemma call_inv {T} (f : Fn) (r : outcome T) (s : St) o s' (tr : trace Line Fn) :
  call f r s = (o, s', tr) ->
  s' = s /\ r = o /\
  tr = match o with Ok _ => [Call f] | Raise ex => [Call f; Raised ex] end.
Proof.
  unfold call. destruct r; intros H; injection H as <- <- <-; auto.
Qed.

Lemma bind_congr {T U} (m : M St Line Fn T) (k1 k2 : T -> M St Line Fn U) s :
  (forall v s1, k1 v s1 = k2 v s1) -> bind m k1 s = bind m k2 s.
Proof.
  intros H. unfold bind. destruct (m s) as [[[v | ex] s1] t1];
    [rewrite H |]; reflexivity.
Qed.

(** A value that is returned and never read does not matter. *)
Lemma bind_call_unread {T U} (f : Fn) (v v' : T) (k : M St Line Fn U) s :
  bind (call f (Ok v)) (fun _ => k) s = bind (call f (Ok v')) (fun _ => k) s.
Proof. reflexivity. Qed.

Lemma stdout_app (t1 t2 : trace Line Fn) :
  stdout (t1 ++ t2) = stdout t1 ++ stdout t2.
Proof.
  induction t1 as [| ev t1 IH]; simpl; [reflexivity |].
  destruct ev; simpl; rewrite IH; reflexivity.
Qed.

Lemma fault_free_app (t1 t2 : trace Line Fn) :
  fault_free (t1 ++ t2) <-> fault_free t1 /\ fault_free t2.
Proof.
  unfold fault_free. rewrite forallb_app, andb_true_iff. tauto.
Qed.

Lemma file_free_app (t1 t2 : trace Line Fn) :
  file_free (t1 ++ t2) <-> file_free t1 /\ file_free t2.
Proof.
  unfold file_free. rewrite forallb_app, andb_true_iff. tauto.
Qed.

End Runs.

(** Splits a run of a [bind] into the run of its two parts. *)
Ltac run_bind H :=
  let ex := fresh "ex" in
  let v := fresh "v" in
  let s1 := fresh "s" in
  let t1 := fresh "t" in
  let t2 := fresh "t" in
  let H1 := fresh "Hrun" in
  let H2 := fresh "Hrun" in
  let Ho := fresh "Hout" in
  let Ht := fresh "Htr" in
  apply bind_inv in H;
  destruct H as [(ex & H1 & Ho) | (v & s1 & t1 & t2 & H1 & H2 & Ht)].

(** Reads off the run of a library call. *)
Ltac run_call H :=
  let Hs := fresh "Hst" in
  let Ho := fresh "Hout" in
  let Ht := fresh "Htr" in
  apply call_inv in H; destruct H as (Hs & Ho & Ht).

(** Takes the run of straight-line code apart: one case for each call
    that may raise and one for the run that returns. *)
Ltac run_inv H :=
  lazymatch type of H with
  | bind _ _ _ = (_, _, _) =>
      let H1 := fresh "Hrun" in
      let H2 := fresh "Hrun" in
      apply bind_inv in H;
      destruct H as [(? & H1 & ?) | (? & ? & ? & ? & H1 & H2 & ?)];
      [ try discriminate; run_inv H1
      | run_inv H1; cbv beta in H2; run_inv H2 ]
  | call _ _ _ = (_, _, _) =>
      apply call_inv in H; destruct H as (? & ? & ?)
  | print _ _ = (_, _, _) => unfold print in H; inversion H; clear H
  | get _ = (_, _, _) => unfold get in H; inversion H; clear H
  | put _ _ = (_, _, _) => unfold put in H; inversion H; clear H
  | ret _ _ = (_, _, _) => unfold ret in H; inversion H; clear H
  | (let (_, _) := ?p in _) _ = (_, _, _) => destruct p; run_inv H
  | _ => idtac
  end.

(** ** Alphabets and uncaught exceptions, piece by piece *)

Section Alphabets.

Context {L : Libs}.

Lemma uncaught_app {T} (o : outcome T) (t1 t2 : list event) :
  fault_free t1 -> uncaught o t2 -> uncaught o (t1 ++ t2).
Proof.
  intros H1 H2. destruct o as [v | ex]; simpl in *.
  - apply fault_free_app. auto.
  - destruct H2 as (pre & -> & Hpre). exists (t1 ++ pre). split.
    + now rewrite app_assoc.
    + apply fault_free_app. auto.
Qed.

Lemma runs_in_ret {T} (P : event -> Prop) (v : T) : runs_in P (ret v).
Proof.
  intros s o s' tr H. unfold ret in H. injection H as <- <- <-.
  split; [constructor | reflexivity].
Qed.

Lemma runs_in_bind {T U} (P : event -> Prop) (m : PyM T) (f : T -> PyM U) :
  runs_in P m -> (forall v, runs_in P (f v)) -> runs_in P (bind m f).
Proof.
  intros Hm Hf s o s' tr H. run_bind H.
  - subst o. destruct (Hm _ _ _ _ Hrun) as [HP Hu]. auto.
  - subst tr. destruct (Hm _ _ _ _ Hrun) as [HP1 Hu1].
    destruct (Hf _ _ _ _ _ Hrun0) as [HP2 Hu2]. split.
    + apply Forall_app. auto.
    + apply uncaught_app; assumption.
Qed.

Lemma runs_in_call {T} (P : event -> Prop) (f : libfn) (r : outcome T) :
  P (Call f) -> (forall ex, P (Raised ex)) -> runs_in P (call f r).
Proof.
  intros Hf Hr s o s' tr H. run_call H. subst. destruct o as [v | ex]; simpl.
  - split; [repeat constructor; assumption | reflexivity].
  - split; [repeat constructor; auto |].
    exists [Call f]. split; reflexivity.
Qed.

Lemma runs_in_print (P : event -> Prop) (l : line) :
  P (Print l) -> runs_in P (print l).
Proof.
  intros Hl s o s' tr H. unfold print in H. injection H as <- <- <-.
  split; [repeat constructor; assumption | reflexivity].
Qed.

Lemma runs_in_get (P : event -> Prop) : runs_in P get.
Proof.
  intros s o s' tr H. unfold get in H. injection H as <- <- <-.
  split; [constructor | reflexivity].
Qed.

Lemma runs_in_put (P : event -> Prop) (s0 : tf_state) : runs_in P (put s0).
Proof.
  intros s o s' tr H. unfold put in H. injection H as <- <- <-.
  split; [constructor | reflexivity].
Qed.

End Alphabets.

(** Walks through straight-line code, leaving the alphabet membership of
    each call and print. *)
Ltac runs_in_step :=
  first
    [ apply runs_in_bind; [| intros ? ]
    | apply runs_in_call; [| intros ?; exact I ]
    | apply runs_in_print
    | apply runs_in_get
    | apply runs_in_put
    | apply runs_in_ret ].

Ltac runs_in_auto :=
  repeat (runs_in_step;
          try match goal with
              | p : (_ * _)%type |- _ => destruct p
              end);
  simpl; auto.

Section Pieces.

Context {L : Libs}.

Lemma train_test_split_runs dataset idx :
  runs_in load_event (train_test_split dataset idx).
Proof. unfold train_test_split. runs_in_auto. Qed.

Lemma build_model_runs dataset : runs_in build_event (build_model dataset).
Proof. unfold build_model. runs_in_auto. Qed.

Lemma train_step_runs batch : runs_in fit_event (train_step batch).
Proof. unfold train_step. destruct batch. runs_in_auto. Qed.

Lemma fit_loop_runs steps bs c m : runs_in fit_event (fit_loop steps bs c m).
Proof.
  revert c m. induction bs as [| b bs IH]; intros c m; simpl.
  - apply runs_in_ret.
  - apply runs_in_bind; [apply train_step_runs | intros outs].
    destruct (c + 1 =? steps).
    + apply runs_in_bind; [apply runs_in_print; exact I | intros _; apply IH].
    + apply IH.
Qed.

Lemma fit_model_runs loader_tr : runs_in fit_event (fit_model loader_tr).
Proof.
  unfold fit_model. apply runs_in_bind.
  - apply runs_in_print. reflexivity.
  - intros _. apply fit_loop_runs.
Qed.

Lemma eval_loop_runs bs y_true y_pred :
  runs_in evaluate_event (eval_loop bs y_true y_pred).
Proof.
  revert y_true y_pred. induction bs as [| [inputs target] bs IH];
    intros y_true y_pred; simpl.
  - apply runs_in_ret.
  - apply runs_in_bind; [apply runs_in_get | intros s].
    apply runs_in_bind; [apply runs_in_call; [exact I | intros ?; exact I] |].
    intros p. apply IH.
Qed.

Lemma evaluate_model_runs loader_te :
  runs_in evaluate_event (evaluate_model loader_te).
Proof.
  unfold evaluate_model.
  apply runs_in_bind; [apply runs_in_print; reflexivity | intros _].
  apply runs_in_bind; [apply runs_in_call; simpl; auto | intros evaluator].
  apply runs_in_bind; [apply eval_loop_runs | intros [y_true y_pred]].
  runs_in_auto.
Qed.

End Pieces.

(** ** The training loop *)

Section Training.

Context {L : Libs}.

(** A training step that returns has made its four calls, and nothing
    else. *)
Lemma train_step_ok batch s l s' tr :
  train_step batch s = (Ok l, s', tr) ->
  tr = [Call (Fmodel true); Call Floss_fn; Call Fgradient;
        Call Fapply_gradients].
Proof.
  destruct batch as [inputs target]. unfold train_step. intros H.
  run_inv H. subst. reflexivity.
Qed.

Lemma train_step_silent batch s l s' tr :
  train_step batch s = (Ok l, s', tr) -> stdout tr = [].
Proof. intros H. rewrite (train_step_ok _ _ H). reflexivity. Qed.

Lemma train_steps_length bs : forall s ls s',
  train_steps bs s = Some (ls, s') -> length ls = length bs.
Proof.
  induction bs as [| b bs IH]; simpl; intros s ls s' H.
  - injection H as <- <-. reflexivity.
  - destruct (train_step b s) as [[[l | ex] s1] t1]; [| discriminate].
    destruct (train_steps bs s1) as [[ls1 s2] |] eqn:E; [| discriminate].
    injection H as <- <-. simpl. f_equal. eapply IH, E.
Qed.

Lemma train_steps_app bs1 bs2 : forall s ls s',
  train_steps (bs1 ++ bs2) s = Some (ls, s') ->
  exists ls1 ls2 s1,
    train_steps bs1 s = Some (ls1, s1) /\
    train_steps bs2 s1 = Some (ls2, s') /\
    ls = ls1 ++ ls2.
Proof.
  induction bs1 as [| b bs1 IH]; simpl; intros s ls s' H.
  - exists [], ls, s. auto.
  - destruct (train_step b s) as [[[l | ex] s1] t1]; [| discriminate].
    destruct (train_steps (bs1 ++ bs2) s1) as [[ls0 s2] |] eqn:E;
      [| discriminate].
    injection H as <- <-.
    destruct (IH _ _ _ E) as (ls1 & ls2 & s3 & E1 & E2 & ->).
    exists (l :: ls1), ls2, s3. rewrite E1. auto.
Qed.

Lemma train_steps_prefix bs1 bs2 s ls s' :
  train_steps (bs1 ++ bs2) s = Some (ls, s') ->
  exists s1, train_steps bs1 s = Some (firstn (length bs1) ls, s1).
Proof.
  intros H. destruct (train_steps_app _ _ _ H) as (ls1 & ls2 & s1 & E1 & _ & ->).
  exists s1. rewrite <- (train_steps_length _ _ E1).
  rewrite firstn_app, firstn_all, Nat.sub_diag. simpl.
  now rewrite app_nil_r.
Qed.

(** One epoch of the loop: the steps that complete the epoch run
    silently, the mean of their losses on top of the accumulator is
    printed, and the loop goes on from [current_batch = 0] and
    [model_loss = 0]. *)
Lemma fit_loop_epoch steps rest bs1 : forall ls1 s s1 c m,
  bs1 <> [] ->
  c + length bs1 = steps ->
  train_steps bs1 s = Some (ls1, s1) ->
  exists t1,
    stdout t1 = [] /\
    forall o s' t,
      fit_loop steps rest 0 zero s1 = (o, s', t) ->
      fit_loop steps (bs1 ++ rest) c m s =
        (o, s', t1 ++ Print (LossLine (div (fold_left add ls1 m) steps)) :: t).
Proof.
  induction bs1 as [| b bs1 IH]; intros ls1 s s1 c m Hne Hlen Hrun;
    [congruence |].
  simpl in Hrun.
  destruct (train_step b s) as [[[l | ex] s2] tb] eqn:Eb; [| discriminate].
  destruct (train_steps bs1 s2) as [[ls2 s3] |] eqn:E; [| discriminate].
  injection Hrun as <- <-.
  destruct bs1 as [| b' bs1'].
  - simpl in E. injection E as <- <-. simpl in Hlen.
    exists tb. split; [eapply train_step_silent, Eb |].
    intros o s' t Hrest. simpl app. simpl fit_loop.
    apply (bind_ok _ _ _ Eb).
    replace (c + 1 =? steps) with true by (symmetry; apply Nat.eqb_eq; lia).
    apply (@bind_ok _ _ _ _ _ _ _ _ tt s2 [Print (LossLine (div (add m l) steps))]);
      [reflexivity | exact Hrest].
  - destruct (IH ls2 s2 s3 (c + 1) (add m l)) as (t1 & Hsil & Heq);
      [discriminate | simpl in *; lia | exact E |].
    exists (tb ++ t1). split.
    + rewrite stdout_app, Hsil, (train_step_silent _ _ Eb). reflexivity.
    + intros o s' t Hrest. rewrite <- app_assoc.
      change ((b :: b' :: bs1') ++ rest) with (b :: ((b' :: bs1') ++ rest)).
      simpl fit_loop. apply (bind_ok _ _ _ Eb).
      replace (c + 1 =? steps) with false
        by (symmetry; apply Nat.eqb_neq; simpl in Hlen; lia).
      apply Heq, Hrest.
Qed.

Lemma epoch_means_nil steps : epoch_means steps [] = [].
Proof.
  unfold epoch_means. simpl. destruct steps; reflexivity.
Qed.

Lemma epoch_means_app steps ls1 ls2 :
  0 < steps -> length ls1 = steps ->
  epoch_means steps (ls1 ++ ls2) =
    div (total ls1) steps :: epoch_means steps ls2.
Proof.
  intros Hpos Hlen. unfold epoch_means.
  rewrite length_app, Hlen.
  replace ((steps + length ls2) / steps) with (S (length ls2 / steps)).
  2:{ replace (steps + length ls2) with (length ls2 + 1 * steps) by lia.
      rewrite Nat.div_add by lia. lia. }
  rewrite <- cons_seq, <- seq_shift. simpl map at 1. f_equal.
  - simpl. rewrite firstn_app, Hlen, firstn_all2 by lia.
    rewrite Nat.sub_diag. simpl. now rewrite app_nil_r.
  - rewrite map_map. apply map_ext. intros k.
    rewrite skipn_app, Hlen, skipn_all2 by (simpl; lia).
    replace (S k * steps - steps) with (k * steps) by (simpl; lia).
    reflexivity.
Qed.

Lemma epoch_means_length steps ls n :
  0 < steps -> length ls = n * steps -> length (epoch_means steps ls) = n.
Proof.
  intros Hpos Hlen. unfold epoch_means.
  rewrite length_map, length_seq, Hlen. apply Nat.div_mul. lia.
Qed.

(** The loop over [n] whole epochs. *)
Lemma fit_loop_epochs steps n : forall bs ls s s',
  0 < steps ->
  length bs = n * steps ->
  train_steps bs s = Some (ls, s') ->
  exists tr,
    fit_loop steps bs 0 zero s = (Ok (0, zero), s', tr) /\
    printed_losses (stdout tr) = epoch_means steps ls.
Proof.
  induction n as [| n IH]; intros bs ls s s' Hpos Hlen Hrun.
  - destruct bs; [| discriminate]. simpl in Hrun. injection Hrun as <- <-.
    exists []. split; [reflexivity |]. now rewrite epoch_means_nil.
  - rewrite <- (firstn_skipn steps bs) in Hrun |- *.
    destruct (train_steps_app _ _ _ Hrun) as (ls1 & ls2 & s1 & E1 & E2 & ->).
    assert (Hl1 : length (firstn steps bs) = steps)
      by (rewrite length_firstn; simpl in Hlen; lia).
    destruct (IH (skipn steps bs) ls2 s1 s') as (tr2 & Hfit & Hout);
      [assumption | rewrite length_skipn; simpl in Hlen; lia | assumption |].
    destruct (@fit_loop_epoch steps (skipn steps bs) (firstn steps bs)
                ls1 s s1 0 zero) as (t1 & Hsil & Heq);
      [intros E; rewrite E in Hl1; simpl in Hl1; lia | lia | assumption |].
    rewrite (Heq _ _ _ Hfit).
    eexists. split; [reflexivity |].
    rewrite stdout_app, Hsil. simpl. rewrite Hout.
    rewrite epoch_means_app; [reflexivity | assumption |].
    rewrite (train_steps_length _ _ E1). assumption.
Qed.

(** C1.  Whenever the training loader yields [n] epochs of
    [steps_per_epoch] batches and the training steps on them return the
    losses [ls], the fitting phase prints exactly [n] loss values, the
    [k]-th being the sum of the [k]-th block of [steps_per_epoch]
    consecutive losses divided by [steps_per_epoch]; after the batches of
    any number of whole epochs, and so after each print, [current_batch]
    and [model_loss] are back to [0]. *)
Theorem training_loss_per_epoch (loader_tr : Loader elt) (n : nat)
    (s s' : tf_state) (ls : list Loss) :
  0 < steps_per_epoch loader_tr ->
  length (batches loader_tr) = n * steps_per_epoch loader_tr ->
  train_steps (batches loader_tr) s = Some (ls, s') ->
  (exists tr,
      fit_model loader_tr s = (Ok (0, zero), s', tr) /\
      printed_losses (stdout tr) = epoch_means (steps_per_epoch loader_tr) ls /\
      length (printed_losses (stdout tr)) = n) /\
  (forall k, k <= n ->
     exists sk tk,
       fit_loop (steps_per_epoch loader_tr)
         (firstn (k * steps_per_epoch loader_tr) (batches loader_tr))
         0 zero s = (Ok (0, zero), sk, tk) /\
       length (printed_losses (stdout tk)) = k).
Proof.
  intros Hpos Hlen Hrun. split.
  - edestruct fit_loop_epochs as (tr & Hfit & Hout);
      [exact Hpos | exact Hlen | exact Hrun |].
    exists (Print (Text "Fitting model") :: tr). split; [| split].
    + unfold fit_model, bind, print. rewrite Hfit. reflexivity.
    + simpl. exact Hout.
    + simpl. rewrite Hout. apply epoch_means_length; [assumption |].
      rewrite (train_steps_length _ _ Hrun). assumption.
  - intros k Hk.
    rewrite <- (firstn_skipn (k * steps_per_epoch loader_tr)
                  (batches loader_tr)) in Hrun.
    destruct (train_steps_prefix _ _ _ Hrun) as (sk & Ek).
    assert (Hl : length (firstn (k * steps_per_epoch loader_tr)
                           (batches loader_tr))
                 = k * steps_per_epoch loader_tr)
      by (rewrite length_firstn; nia).
    edestruct fit_loop_epochs as (tk & Hfit & Hout);
      [exact Hpos | exact Hl | exact Ek |].
    exists sk, tk. split; [assumption |].
    rewrite Hout. apply epoch_means_length; [assumption |].
    rewrite (train_steps_length _ _ Ek). assumption.
Qed.

End Training.

(** ** Slices, disjoint unions and loaders *)

Section Loaders.

Variable R : Type.

Lemma n_batches_covers batch_size n :
  0 < batch_size -> n <= n_batches batch_size n * batch_size.
Proof.
  intros Hpos. unfold n_batches.
  assert (H : n + batch_size - 1
              < batch_size * S ((n + batch_size - 1) / batch_size))
    by (apply Nat.mul_succ_div_gt; lia).
  nia.
Qed.

Lemma n_batches_tight batch_size n k :
  0 < batch_size -> k < n_batches batch_size n -> k * batch_size < n.
Proof.
  intros Hpos Hk. unfold n_batches in Hk.
  pose proof (Nat.Div0.mul_div_le (n + batch_size - 1) batch_size) as H.
  nia.
Qed.

Lemma concat_slices_upto {T} batch_size n : forall l : list T,
  length l <= n * batch_size ->
  concat (map (fun k => firstn batch_size (skipn (k * batch_size) l))
              (seq 0 n)) = l.
Proof.
  induction n as [| n IH]; intros l Hlen.
  - destruct l; [reflexivity | simpl in Hlen; lia].
  - rewrite <- cons_seq, <- seq_shift, map_cons, map_map. simpl concat.
    transitivity (firstn batch_size l ++ skipn batch_size l);
      [| apply firstn_skipn].
    f_equal.
    rewrite <- (IH (skipn batch_size l)) at 1.
    + f_equal. apply map_ext. intros k. rewrite skipn_skipn.
      f_equal. f_equal. simpl. lia.
    + rewrite length_skipn. simpl in Hlen. lia.
Qed.

(** The slices of a list, put end to end, are the list. *)
Lemma concat_slices {T} batch_size (l : list T) :
  0 < batch_size -> concat (slices batch_size l) = l.
Proof.
  intros Hpos. unfold slices. apply concat_slices_upto.
  apply n_batches_covers. assumption.
Qed.

Lemma incl_firstn_skipn {T} n k (l : list T) : incl (firstn n (skipn k l)) l.
Proof.
  intros z Hz.
  rewrite <- (firstn_skipn k l). apply in_or_app. right.
  rewrite <- (firstn_skipn n (skipn k l)). apply in_or_app. left. exact Hz.
Qed.

(** A slice holds between one and [batch_size] elements of the list. *)
Lemma slice_bounds {T} batch_size (l sl : list T) :
  0 < batch_size -> In sl (slices batch_size l) ->
  1 <= length sl <= batch_size /\ incl sl l.
Proof.
  intros Hpos Hin. unfold slices in Hin. apply in_map_iff in Hin.
  destruct Hin as (k & <- & Hk). apply in_seq in Hk.
  assert (Hlt : k * batch_size < length l)
    by (apply n_batches_tight; [assumption | lia]).
  split.
  - rewrite length_firstn, length_skipn. lia.
  - apply incl_firstn_skipn.
Qed.

Lemma slices_length {T} batch_size (l : list T) :
  length (slices batch_size l) = n_batches batch_size (length l).
Proof. unfold slices. now rewrite length_map, length_seq. Qed.

(** A loader yields [epochs] times [steps_per_epoch] batches. *)
Lemma DisjointLoader_length (order : nat -> Dataset R -> Dataset R)
    (dataset : Dataset R) batch_size epochs :
  (forall k, Permutation (order k dataset) dataset) ->
  length (batches (DisjointLoader order dataset batch_size epochs)) =
    epochs * steps_per_epoch (DisjointLoader order dataset batch_size epochs).
Proof.
  intros Hperm. simpl.
  generalize 0 at 1. induction epochs as [| n IH]; intros k0; simpl.
  - reflexivity.
  - rewrite length_app, IH, length_map, slices_length.
    rewrite (Permutation_length (Hperm k0)). reflexivity.
Qed.

Lemma nodes_length (gs : list (Graph R)) :
  length (concat (map (@node_features R) gs)) = list_sum (map (@n_nodes R) gs).
Proof.
  induction gs as [| g gs IH]; simpl; [reflexivity |].
  rewrite length_app, IH. reflexivity.
Qed.

Lemma index_vector_length (gs : list (Graph R)) : forall k,
  length (index_vector k gs) = list_sum (map (@n_nodes R) gs).
Proof.
  induction gs as [| g gs IH]; intros k; simpl; [reflexivity |].
  rewrite length_app, repeat_length, IH. reflexivity.
Qed.

(** Node [r] of the [k]-th graph is assigned to [k]. *)
Lemma index_vector_nth (gs : list (Graph R)) : forall k0 k g r,
  nth_error gs k = Some g -> r < n_nodes g ->
  nth_error (index_vector k0 gs) (offset gs k + r) = Some (k0 + k).
Proof.
  induction gs as [| g0 gs IH]; intros k0 k g r Hk Hr.
  - destruct k; discriminate.
  - destruct k as [| k]; simpl in Hk.
    + injection Hk as ->. unfold offset. simpl.
      rewrite nth_error_app1 by (rewrite repeat_length; assumption).
      rewrite nth_error_repeat by assumption. f_equal. lia.
    + unfold offset. simpl. fold (offset gs k).
      rewrite nth_error_app2 by (rewrite repeat_length; lia).
      rewrite repeat_length.
      replace (n_nodes g0 + offset gs k + r - n_nodes g0)
        with (offset gs k + r) by lia.
      rewrite (IH (S k0) k g r Hk Hr). f_equal. lia.
Qed.

(** The entries of the union are those of the graphs, each graph moved
    to its own block. *)
Lemma getitem_incl (dataset : Dataset R) idx : forall d,
  getitem dataset idx = Ok d -> incl d dataset.
Proof.
  induction idx as [| i idx IH]; simpl; intros d H.
  - injection H as <-. intros g [].
  - destruct (nth_error dataset i) as [g |] eqn:Ei; [| discriminate].
    destruct (getitem dataset idx) as [gs | ex]; [| discriminate].
    injection H as <-. intros g' [<- | Hin].
    + eapply nth_error_In, Ei.
    + eapply IH; [reflexivity | exact Hin].
Qed.

Lemma block_diag_In (gs : list (Graph R)) : forall o r c v,
  Forall (@wf_graph R) gs ->
  In (r, c, v) (block_diag o gs) <->
  exists k g r0 c0,
    nth_error gs k = Some g /\
    In (r0, c0, v) (entries (adjacency g)) /\
    r = o + offset gs k + r0 /\ c = o + offset gs k + c0.
Proof.
  induction gs as [| g0 gs IH]; intros o r c v Hwf.
  - simpl. split; [contradiction |].
    intros (k & g & r0 & c0 & Hk & _). destruct k; discriminate.
  - inversion Hwf as [| ? ? [Hsize Hent] Hwf']; subst. simpl.
    rewrite in_app_iff, in_map_iff, (IH _ _ _ _ Hwf'). split.
    + intros [([[r0 c0] v0] & Heq & Hin) | (k & g & r0 & c0 & Hk & Hin & -> & ->)].
      * simpl in Heq. injection Heq as <- <- <-.
        exists 0, g0, r0, c0. unfold offset. simpl.
        repeat split; try assumption; lia.
      * exists (S k), g, r0, c0. unfold offset. simpl. fold (offset gs k).
        rewrite Hsize. repeat split; try assumption; lia.
    + intros (k & g & r0 & c0 & Hk & Hin & -> & ->).
      destruct k as [| k]; simpl in Hk.
      * injection Hk as ->. left. exists (r0, c0, v). unfold offset. simpl.
        split; [| assumption]. simpl.
        now rewrite !Nat.add_0_r.
      * right. exists k, g, r0, c0. unfold offset. simpl. fold (offset gs k).
        rewrite Hsize. repeat split; try assumption; lia.
Qed.

(** Every batch a [DisjointLoader] yields is the disjoint union of
    between one and [batch_size] graphs of the dataset. *)
Lemma DisjointLoader_batch
    (order : nat -> Dataset R -> Dataset R) (dataset : Dataset R)
    (batch_size epochs : nat) (batch : Batch R) :
  0 < batch_size ->
  Forall (@wf_graph R) dataset ->
  (forall k, Permutation (order k dataset) dataset) ->
  In batch (batches (DisjointLoader order dataset batch_size epochs)) ->
  exists gs,
    batch = collate gs /\
    1 <= length gs <= batch_size /\
    incl gs dataset /\
    disjoint_union gs batch.
Proof.
  intros Hpos Hwf Hperm Hin. simpl in Hin.
  apply in_flat_map in Hin. destruct Hin as (k0 & _ & Hin).
  apply in_map_iff in Hin. destruct Hin as (gs & <- & Hgs).
  apply slice_bounds in Hgs; [| exact Hpos]. destruct Hgs as [Hlen Hincl].
  assert (Hsub : incl gs dataset).
  { intros g Hg. eapply Permutation_in; [apply Hperm |]. apply Hincl, Hg. }
  assert (Hwfs : Forall (@wf_graph R) gs).
  { rewrite Forall_forall in Hwf |- *. intros g Hg. apply Hwf, Hsub, Hg. }
  assert (Hidx : forall k g r,
             nth_error gs k = Some g -> r < n_nodes g ->
             nth_error (index_vector 0 gs) (offset gs k + r) = Some k).
  { intros k g r Hk Hr. erewrite index_vector_nth by eassumption.
    reflexivity. }
  assert (Hblk : forall r c v,
             In (r, c, v) (block_diag 0 gs) <->
             exists k g r0 c0,
               nth_error gs k = Some g /\
               In (r0, c0, v) (entries (adjacency g)) /\
               r = offset gs k + r0 /\ c = offset gs k + c0).
  { intros r c v. rewrite block_diag_In by exact Hwfs. reflexivity. }
  assert (Hsize : list_sum (map (fun g => size (adjacency g)) gs)
                  = list_sum (map (@n_nodes R) gs)).
  { clear - Hwfs. induction Hwfs as [| g gs [Hg _] _ IH]; simpl;
      [reflexivity | now rewrite Hg, IH]. }
  exists gs. unfold disjoint_union. simpl.
  repeat split; try assumption; try lia.
  - rewrite Hsize, nodes_length. reflexivity.
  - rewrite index_vector_length, nodes_length. reflexivity.
  - apply Hblk.
  - apply Hblk.
  - intros r c v Hent. apply Hblk in Hent.
    destruct Hent as (k & g & r0 & c0 & Hk & Hen & -> & ->).
    assert (Hg : wf_graph g).
    { rewrite Forall_forall in Hwfs. eapply Hwfs, nth_error_In, Hk. }
    destruct Hg as [_ Hrange]. rewrite Forall_forall in Hrange.
    destruct (Hrange _ Hen) as [Hr Hc]. simpl in Hr, Hc.
    exists k. split; eapply Hidx; eassumption.
Qed.

End Loaders.

(** ** The evaluation loop *)

Section Evaluation.

Context {L : Libs}.

Lemma predictions_length v bs : forall ps,
  predictions v bs = Some ps -> length ps = length bs.
Proof.
  induction bs as [| b bs IH]; simpl; intros ps H.
  - injection H as <-. reflexivity.
  - destruct (model v false (fst b)) as [p | ex]; [| discriminate].
    destruct (predictions v bs) as [ps' |]; [| discriminate].
    injection H as <-. simpl. f_equal. apply IH. reflexivity.
Qed.

Lemma predictions_nth v bs : forall ps j b p,
  predictions v bs = Some ps ->
  nth_error bs j = Some b -> nth_error ps j = Some p ->
  model v false (fst b) = Ok p.
Proof.
  induction bs as [| b0 bs IH]; simpl; intros ps j b p H Hb Hp.
  - destruct j; discriminate.
  - destruct (model v false (fst b0)) as [p0 | ex] eqn:E0; [| discriminate].
    destruct (predictions v bs) as [ps' |]; [| discriminate].
    injection H as <-. destruct j as [| j]; simpl in Hb, Hp.
    + injection Hb as <-. injection Hp as <-. exact E0.
    + eapply IH; [reflexivity | exact Hb | exact Hp].
Qed.

(** When every forward pass returns, the loop appends the target of each
    batch and the prediction on it, batch after batch, and leaves the
    model as it was. *)
Lemma eval_loop_ok bs : forall s y_true y_pred ps,
  predictions (variables s) bs = Some ps ->
  eval_loop bs y_true y_pred s =
    (Ok (y_true ++ map snd bs, y_pred ++ ps), s,
     repeat (Call (Fmodel false)) (length bs)).
Proof.
  induction bs as [| [inputs target] bs IH]; simpl;
    intros s y_true y_pred ps H.
  - injection H as <-. unfold ret. now rewrite !app_nil_r.
  - destruct (model (variables s) false inputs) as [p | ex] eqn:E;
      [| discriminate].
    destruct (predictions (variables s) bs) as [ps' |] eqn:E';
      [| discriminate].
    injection H as <-.
    cbv [bind get call]. rewrite E, (IH s _ _ ps' E'), <- !app_assoc.
    reflexivity.
Qed.

Lemma row_offset_cons {T} (blk : list T) blocks j :
  row_offset (blk :: blocks) (S j) = length blk + row_offset blocks j.
Proof. unfold row_offset. simpl. now rewrite length_app. Qed.

(** Row [r] of block [j] sits at [row_offset j + r] in the stack. *)
Lemma nth_error_concat {T} (blocks : list (list T)) : forall j blk r,
  nth_error blocks j = Some blk -> r < length blk ->
  nth_error (concat blocks) (row_offset blocks j + r) = nth_error blk r.
Proof.
  induction blocks as [| b0 blocks IH]; intros j blk r Hj Hr.
  - destruct j; discriminate.
  - destruct j as [| j]; simpl in Hj.
    + injection Hj as ->. unfold row_offset. simpl.
      apply nth_error_app1. assumption.
    + rewrite row_offset_cons. simpl.
      rewrite nth_error_app2 by lia.
      replace (length b0 + row_offset blocks j + r - length b0)
        with (row_offset blocks j + r) by lia.
      apply IH; assumption.
Qed.

Lemma row_offset_same {T U} (xs : list (list T)) (ys : list (list U)) :
  Forall2 (fun a b => length b = length a) xs ys ->
  forall j, row_offset xs j = row_offset ys j.
Proof.
  induction 1 as [| a b xs ys Hab _ IH]; intros j.
  - destruct j; reflexivity.
  - destruct j as [| j]; [reflexivity |].
    rewrite !row_offset_cons, IH, Hab. reflexivity.
Qed.

Lemma concat_length_same {T U} (xs : list (list T)) (ys : list (list U)) :
  Forall2 (fun a b => length b = length a) xs ys ->
  length (concat ys) = length (concat xs).
Proof.
  induction 1 as [| a b xs ys Hab _ IH]; simpl; [reflexivity |].
  rewrite !length_app, IH, Hab. reflexivity.
Qed.

Lemma Forall2_nth_error {T U} (P : T -> U -> Prop) xs ys :
  Forall2 P xs ys ->
  forall j a b, nth_error xs j = Some a -> nth_error ys j = Some b -> P a b.
Proof.
  induction 1 as [| a0 b0 xs ys H0 _ IH]; intros j a b Ha Hb.
  - destruct j; discriminate.
  - destruct j as [| j]; simpl in Ha, Hb.
    + injection Ha as <-. injection Hb as <-. exact H0.
    + eapply IH; eassumption.
Qed.

Lemma slices_nonempty {T} batch_size (l : list T) :
  0 < batch_size -> l <> [] -> slices batch_size l <> [].
Proof.
  intros Hpos Hl E. apply (f_equal (@length _)) in E.
  rewrite slices_length in E. simpl in E.
  pose proof (n_batches_covers (length l) Hpos) as H.
  destruct l; [congruence | simpl in *; lia].
Qed.

End Evaluation.

(** ** The phases of the script *)

Section Phases.

Context {L : Libs}.

Lemma train_test_split_ok dataset idx s loader_tr loader_te s' tr :
  train_test_split dataset idx s = (Ok (loader_tr, loader_te), s', tr) ->
  exists dataset_tr dataset_va dataset_te,
    getitem dataset (train idx) = Ok dataset_tr /\
    getitem dataset (valid idx) = Ok dataset_va /\
    getitem dataset (test idx) = Ok dataset_te /\
    loader_tr = DisjointLoader shuffle dataset_tr batch_size epochs /\
    loader_te = DisjointLoader (fun k => shuffle (epochs + k))
                  dataset_te batch_size 1 /\
    s' = s.
Proof.
  unfold train_test_split. intros H. run_inv H.
  repeat match goal with
         | E : Ok _ = Ok _ |- _ => injection E as E
         end.
  subst. eexists _, _, _. repeat split; eassumption.
Qed.

(** A fitting loop that returns has completed one step per batch. *)
Lemma fit_loop_steps_done steps bs : forall c m s r s' tr,
  fit_loop steps bs c m s = (Ok r, s', tr) ->
  length (filter is_step_done tr) = length bs.
Proof.
  induction bs as [| b bs IH]; intros c m s r s' tr H; simpl in H.
  - unfold ret in H. injection H as <- <- <-. reflexivity.
  - apply bind_inv in H.
    destruct H as [(ex & _ & Ho) | (l & s1 & t1 & r1 & Hst & H & ->)];
      [discriminate |].
    rewrite (train_step_ok _ _ Hst), filter_app, length_app. simpl.
    f_equal. destruct (c + 1 =? steps).
    + apply bind_inv in H.
      destruct H as [(ex & _ & Ho) | (u & s2 & t2 & r2 & Hpr & H & ->)];
        [discriminate |].
      unfold print in Hpr. injection Hpr as <- <- <-. simpl.
      eapply IH, H.
    + eapply IH, H.
Qed.

Lemma fit_model_steps_done loader_tr s r s' tr :
  fit_model loader_tr s = (Ok r, s', tr) ->
  length (filter is_step_done tr) = length (batches loader_tr).
Proof.
  unfold fit_model. intros H. apply bind_inv in H.
  destruct H as [(ex & _ & Ho) | (u & s1 & t1 & r1 & Hpr & H & ->)];
    [discriminate |].
  unfold print in Hpr. injection Hpr as <- <- <-. simpl.
  eapply fit_loop_steps_done, H.
Qed.

Lemma filter_none (f : event -> bool) (P : event -> Prop) tr :
  (forall ev, P ev -> f ev = false) -> Forall P tr -> filter f tr = [].
Proof.
  intros HP H. induction H as [| ev tr Hev _ IH]; simpl; [reflexivity |].
  now rewrite (HP _ Hev).
Qed.



Lemma evaluate_no_step ev : evaluate_event ev -> is_step_done ev = false.
Proof. destruct ev as [l | [] | ex | op p]; simpl; tauto. Qed.



Lemma fit_no_forward ev : fit_event ev -> is_eval_forward ev = false.
Proof. destruct ev as [l | [| | | | | | | | [] | | | | | |] | ex | op p]; simpl; tauto. Qed.

(** The run of everything after the split, phase by phase. *)
Lemma after_split_run dataset idx s o s' tr :
  after_split dataset idx s = (o, s', tr) ->
  exists t_load t_build t_fit t_eval,
    tr = t_load ++ t_build ++ t_fit ++ t_eval /\
    Forall load_event t_load /\
    Forall build_event t_build /\
    Forall fit_event t_fit /\
    Forall evaluate_event t_eval /\
    uncaught o tr /\
    (t_eval <> [] ->
     exists dataset_tr,
       getitem dataset (train idx) = Ok dataset_tr /\
       length (filter is_step_done t_fit) =
         length (batches (DisjointLoader shuffle dataset_tr batch_size epochs))).
Proof.
  unfold after_split. intros H.
  apply bind_inv in H.
  destruct H as [(ex & Hsp & ->) | ([ltr lte] & s1 & t1 & r1 & Hsp & H & ->)].
  { apply train_test_split_runs in Hsp. destruct Hsp as [Hev Hun].
    exists tr, [], [], []. rewrite !app_nil_r.
    repeat split; try constructor; try assumption. congruence. }
  pose proof Hsp as Hok. apply train_test_split_ok in Hok.
  destruct Hok as (dataset_tr & _ & _ & Etr & _ & _ & -> & _ & _).
  apply train_test_split_runs in Hsp. destruct Hsp as [Hev1 Hun1].
  simpl in Hun1.
  apply bind_inv in H.
  destruct H as [(ex & Hbu & ->) | (u2 & s2 & t2 & r2 & Hbu & H & ->)].
  { apply build_model_runs in Hbu. destruct Hbu as [Hev2 Hun2].
    exists t1, r1, [], []. rewrite !app_nil_r.
    repeat split; try constructor; try assumption.
    - apply uncaught_app; assumption.
    - congruence. }
  apply build_model_runs in Hbu. destruct Hbu as [Hev2 Hun2]. simpl in Hun2.
  apply bind_inv in H.
  destruct H as [(ex & Hfi & ->) | (u3 & s3 & t3 & r3 & Hfi & H & ->)].
  { apply fit_model_runs in Hfi. destruct Hfi as [Hev3 Hun3].
    exists t1, t2, r2, []. rewrite !app_nil_r.
    repeat split; try constructor; try assumption.
    - repeat apply uncaught_app; assumption.
    - congruence. }
  pose proof Hfi as Hdone. apply fit_model_steps_done in Hdone.
  apply fit_model_runs in Hfi. destruct Hfi as [Hev3 Hun3]. simpl in Hun3.
  apply evaluate_model_runs in H. destruct H as [Hev4 Hun4].
  exists t1, t2, t3, r3.
  repeat split; try assumption.
  - repeat apply uncaught_app; assumption.
  - intros _. exists dataset_tr. split; assumption.
Qed.

(** A run that ends while loading has an empty trace for the later
    phases. *)
Lemma stopped_loading {T} (o : outcome T) (tr : list event) (Q : list event -> Prop) :
  Forall load_event tr -> uncaught o tr ->
  exists t_load t_build t_fit t_eval,
    tr = t_load ++ t_build ++ t_fit ++ t_eval /\
    Forall load_event t_load /\
    Forall build_event t_build /\
    Forall fit_event t_fit /\
    Forall evaluate_event t_eval /\
    uncaught o tr /\
    (t_eval <> [] -> Q t_fit).
Proof.
  intros Hev Hun. exists tr, [], [], []. rewrite !app_nil_r.
  split; [reflexivity |]. split; [assumption |].
  split; [constructor |]. split; [constructor |]. split; [constructor |].
  split; [assumption | congruence].
Qed.

(** The run of the whole script, phase by phase: the four traces follow
    one another, each within its alphabet; an exception is left uncaught;
    and once evaluation has begun, fitting has completed one training
    step for every batch of the training loader. *)
Lemma script_run s o s' tr :
  script s = (o, s', tr) ->
  exists t_load t_build t_fit t_eval,
    tr = t_load ++ t_build ++ t_fit ++ t_eval /\
    Forall load_event t_load /\
    Forall build_event t_build /\
    Forall fit_event t_fit /\
    Forall evaluate_event t_eval /\
    uncaught o tr /\
    (t_eval <> [] ->
     exists ogb_dataset dataset idx dataset_tr,
       GraphPropPredDataset dataset_name = Ok ogb_dataset /\
       OGB ogb_dataset = Ok dataset /\
       get_idx_split ogb_dataset = Ok idx /\
       getitem dataset (train idx) = Ok dataset_tr /\
       length (filter is_step_done t_fit) =
         length (batches (DisjointLoader shuffle dataset_tr batch_size epochs))).
Proof.
  unfold script. intros H.
  apply bind_inv in H.
  destruct H as [(ex & Hc & ->) | (ogb & s1 & t1 & r1 & Hc & H & ->)].
  { apply (@runs_in_call _ _ load_event) in Hc;
      [| reflexivity | intros ?; exact I].
    destruct Hc as [Hev Hun].
    apply (@stopped_loading _ (Raise ex) tr); assumption. }
  pose proof Hc as Hc1.
  apply (@runs_in_call _ _ load_event) in Hc1;
    [| reflexivity | intros ?; exact I].
  destruct Hc1 as [Hev1 Hun1]. simpl in Hun1.
  apply call_inv in Hc. destruct Hc as (_ & Eogb & _).
  apply bind_inv in H.
  destruct H as [(ex & Hc & ->) | (dataset & s2 & t2 & r2 & Hc & H & ->)].
  { apply (@runs_in_call _ _ load_event) in Hc;
      [| exact I | intros ?; exact I].
    destruct Hc as [Hev Hun].
    apply (@stopped_loading _ (Raise ex) (t1 ++ r1)).
    - apply Forall_app; auto.
    - apply uncaught_app; assumption. }
  pose proof Hc as Hc2.
  apply (@runs_in_call _ _ load_event) in Hc2;
    [| exact I | intros ?; exact I].
  destruct Hc2 as [Hev2 Hun2]. simpl in Hun2.
  apply call_inv in Hc. destruct Hc as (_ & Eds & _).
  apply bind_inv in H.
  destruct H as [(ex & Hc & ->) | (idx & s3 & t3 & r3 & Hc & H & ->)].
  { apply (@runs_in_call _ _ load_event) in Hc;
      [| exact I | intros ?; exact I].
    destruct Hc as [Hev Hun].
    apply (@stopped_loading _ (Raise ex) (t1 ++ t2 ++ r2)).
    - repeat (apply Forall_app; split); auto.
    - repeat apply uncaught_app; assumption. }
  pose proof Hc as Hc3.
  apply (@runs_in_call _ _ load_event) in Hc3;
    [| exact I | intros ?; exact I].
  destruct Hc3 as [Hev3 Hun3]. simpl in Hun3.
  apply call_inv in Hc. destruct Hc as (_ & Eidx & _).
  apply after_split_run in H.
  destruct H
    as (t_load & t_build & t_fit & t_eval & -> & Hl & Hb & Hf & He & Hun & Hdone).
  exists (t1 ++ t2 ++ t3 ++ t_load), t_build, t_fit, t_eval.
  split; [now rewrite <- !app_assoc |].
  split; [repeat (apply Forall_app; split); assumption |].
  split; [assumption |]. split; [assumption |]. split; [assumption |].
  split.
  - do 3 (apply uncaught_app; [assumption |]). exact Hun.
  - intros Hne. destruct (Hdone Hne) as (dataset_tr & Etr & Hcount).
    exists ogb, dataset, idx, dataset_tr. auto.
Qed.

End Phases.

(** ** Properties of the whole script *)

Section Claims.

Context {L : Libs}.



Lemma fault_free_not_raised (t : list event) ex :
  fault_free t -> ~ In (Raised ex) t.
Proof.
  unfold fault_free. rewrite forallb_forall. intros H Hin.
  specialize (H _ Hin). discriminate.
Qed.

(** C4.  In every run, an exception raised inside a library call is the
    outcome of the script and the last effect of the run: nothing
    catches it, nothing runs after it, nothing replaces it; and the
    script fails only with an exception a library call raised. *)
Theorem exceptions_propagate s o s' tr :
  script s = (o, s', tr) ->
  (forall ex, In (Raised ex) tr ->
     o = Raise ex /\ exists pre, tr = pre ++ [Raised ex] /\ fault_free pre) /\
  (forall ex, o = Raise ex -> In (Raised ex) tr).
Proof.
  intros H. apply script_run in H.
  destruct H as (_ & _ & _ & _ & _ & _ & _ & _ & _ & Hun & _).
  split.
  - intros ex Hin. destruct o as [v | ex0]; simpl in Hun.
    + exfalso. eapply fault_free_not_raised; eassumption.
    + destruct Hun as (pre & -> & Hpre).
      apply in_app_or in Hin. destruct Hin as [Hin | [Hin | []]].
      * exfalso. eapply fault_free_not_raised; eassumption.
      * injection Hin as ->. split; [reflexivity |]. exists pre. auto.
  - intros ex ->. simpl in Hun. destruct Hun as (pre & -> & _).
    apply in_or_app. right. left. reflexivity.
Qed.

Lemma load_configured ev : load_event ev -> configured ev.
Proof. destruct ev as [l | [] | ex | op p]; simpl; tauto. Qed.

Lemma build_configured ev : build_event ev -> configured ev.
Proof. destruct ev as [l | [] | ex | op p]; simpl; tauto. Qed.

Lemma fit_configured ev : fit_event ev -> configured ev.
Proof. destruct ev as [l | [] | ex | op p]; simpl; tauto. Qed.

Lemma evaluate_configured ev : evaluate_event ev -> configured ev.
Proof. destruct ev as [l | [] | ex | op p]; simpl; tauto. Qed.

(** C7.  Every batch the training loop and the evaluation loop consume
    is the disjoint union of between one and [batch_size] labelled graphs
    of the dataset: one block-diagonal sparse adjacency holding the
    adjacencies of the graphs, and an index vector [I] that assigns each
    node to the graph it came from. *)
Theorem batches_are_disjoint_unions (dataset : Dataset elt) (idx : Split)
    s loader_tr loader_te s' tr (batch : Batch elt) :
  Forall (@wf_graph elt) dataset ->
  train_test_split dataset idx s = (Ok (loader_tr, loader_te), s', tr) ->
  In batch (batches loader_tr) \/ In batch (batches loader_te) ->
  exists gs,
    batch = collate gs /\
    1 <= length gs <= batch_size /\
    incl gs dataset /\
    disjoint_union gs batch.
Proof.
  intros Hwf Hsplit Hin. apply train_test_split_ok in Hsplit.
  destruct Hsplit as (dataset_tr & _ & dataset_te & Etr & _ & Ete & -> & -> & _).
  apply getitem_incl in Etr. apply getitem_incl in Ete.
  assert (Hpos : 0 < batch_size) by (unfold batch_size; lia).
  rewrite Forall_forall in Hwf.
  destruct Hin as [Hin | Hin];
    apply DisjointLoader_batch in Hin;
    try exact Hpos;
    try (intros k; apply shuffle_perm);
    try (apply Forall_forall; intros g Hg; apply Hwf; auto).
  - destruct Hin as (gs & Hb & Hlen & Hincl & Hun). exists gs.
    split; [exact Hb |]. split; [exact Hlen |]. split; [| exact Hun].
    intros g Hg. apply Etr, Hincl, Hg.
  - destruct Hin as (gs & Hb & Hlen & Hincl & Hun). exists gs.
    split; [exact Hb |]. split; [exact Hlen |]. split; [| exact Hun].
    intros g Hg. apply Ete, Hincl, Hg.
Qed.

End Claims.

Section Frames.

Context {L : Libs}.

(** The evaluation loop never writes the model. *)
Lemma eval_loop_state bs : forall y_true y_pred s o s' tr,
  eval_loop bs y_true y_pred s = (o, s', tr) -> s' = s.
Proof.
  induction bs as [| [inputs target] bs IH];
    intros y_true y_pred s o s' tr H; simpl in H.
  - unfold ret in H. now injection H as _ <- _.
  - apply bind_inv in H.
    destruct H as [(ex & Hg & _) | (s0 & s1 & t1 & r1 & Hg & H & _)];
      unfold get in Hg; [discriminate |].
    injection Hg as <- <- _.
    apply bind_inv in H.
    destruct H as [(ex & Hc & _) | (p & s2 & t2 & r2 & Hc & H & _)];
      apply call_inv in Hc; destruct Hc as (Hs & _ & _).
    + exact Hs.
    + subst s2. eapply IH, H.
Qed.

Lemma evaluate_no_train ev : evaluate_event ev -> is_train_call ev = false.
Proof.
  destruct ev as [l | [| | | | | | | | [] | | | | | |] | ex | op p];
    simpl; tauto.
Qed.

(** C8.  In every run of the evaluation phase the model and the
    optimizer are at the end what they were when the phase began, that is
    when the training loop finished; the phase makes no training forward
    pass, takes no gradient and applies none, and every forward pass it
    makes has [training=False]. *)
Theorem evaluation_preserves_model (loader_te : Loader elt) s o s' tr :
  evaluate_model loader_te s = (o, s', tr) ->
  s' = s /\
  (forall ev, In ev tr -> is_train_call ev = false) /\
  (forall training, In (Call (Fmodel training)) tr -> training = false).
Proof.
  intros H.
  assert (Hev : Forall evaluate_event tr)
    by (apply evaluate_model_runs in H; tauto).
  rewrite Forall_forall in Hev. split; [| split].
  - unfold evaluate_model in H.
    apply bind_inv in H.
    destruct H as [(ex & Hp & _) | (u & s1 & t1 & r1 & Hp & H & _)];
      unfold print in Hp; [discriminate |]. injection Hp as _ <- _.
    apply bind_inv in H.
    destruct H as [(ex & Hc & _) | (ev & s2 & t2 & r2 & Hc & H & _)];
      apply call_inv in Hc; destruct Hc as (Hs & _ & _); [exact Hs |].
    subst s2. apply bind_inv in H.
    destruct H as [(ex & Hl & _) | ([yt yp] & s3 & t3 & r3 & Hl & H & _)];
      apply eval_loop_state in Hl; [exact Hl |].
    subst s3. apply bind_inv in H.
    destruct H as [(ex & Hc & _) | (Yt & s4 & t4 & r4 & Hc & H & _)];
      apply call_inv in Hc; destruct Hc as (Hs & _ & _); [exact Hs |].
    subst s4. apply bind_inv in H.
    destruct H as [(ex & Hc & _) | (Yp & s5 & t5 & r5 & Hc & H & _)];
      apply call_inv in Hc; destruct Hc as (Hs & _ & _); [exact Hs |].
    subst s5. apply bind_inv in H.
    destruct H as [(ex & Hc & _) | (ml & s6 & t6 & r6 & Hc & H & _)];
      apply call_inv in Hc; destruct Hc as (Hs & _ & _); [exact Hs |].
    subst s6. apply bind_inv in H.
    destruct H as [(ex & Hc & _) | (sc & s7 & t7 & r7 & Hc & H & _)];
      apply call_inv in Hc; destruct Hc as (Hs & _ & _); [exact Hs |].
    subst s7. unfold print in H. now injection H as _ <- _.
  - intros ev Hin. apply evaluate_no_train, Hev, Hin.
  - intros training Hin. apply Hev in Hin. destruct training; simpl in Hin;
      [contradiction | reflexivity].
Qed.

(** C9.  Two runs from the same dataset whose splits have the same
    training and test indices, and in both of which the validation set is
    built, are the same run: same outcome, same final model and optimizer,
    same effects, so the same training steps and the same printed
    lines.  The validation set is read by nothing. *)
Theorem validation_split_unused (dataset : Dataset elt) (idx1 idx2 : Split)
    (va1 va2 : Dataset elt) (s : tf_state) :
  train idx1 = train idx2 ->
  test idx1 = test idx2 ->
  getitem dataset (valid idx1) = Ok va1 ->
  getitem dataset (valid idx2) = Ok va2 ->
  after_split dataset idx1 s = after_split dataset idx2 s.
Proof.
  intros Htr Hte Hva1 Hva2.
  assert (Hsplit : train_test_split dataset idx1 s
                   = train_test_split dataset idx2 s).
  { unfold train_test_split. rewrite Htr, Hte, Hva1, Hva2.
    apply bind_congr. intros dataset_tr s1. apply bind_call_unread. }
  unfold after_split, bind at 1 4. rewrite Hsplit. reflexivity.
Qed.

Lemma load_output ev : load_event ev ->
  is_file ev = false /\ forall l, ev = Print l -> is_output_line l.
Proof.
  destruct ev as [l | [] | ex | op p]; simpl; try tauto;
    intros; split; try reflexivity; intros; discriminate.
Qed.

Lemma build_output ev : build_event ev ->
  is_file ev = false /\ forall l, ev = Print l -> is_output_line l.
Proof.
  destruct ev as [l | [] | ex | op p]; simpl; try tauto;
    intros; split; try reflexivity; intros; discriminate.
Qed.

Lemma fit_output ev : fit_event ev ->
  is_file ev = false /\ forall l, ev = Print l -> is_output_line l.
Proof.
  destruct ev as [[t | v | l a] | [] | ex | op p]; simpl; try tauto;
    intros H; split; try reflexivity; intros l' E; try discriminate;
    injection E as <-; simpl; auto.
Qed.

Lemma evaluate_output ev : evaluate_event ev ->
  is_file ev = false /\ forall l, ev = Print l -> is_output_line l.
Proof.
  destruct ev as [[t | v | l a] | [] | ex | op p]; simpl; try tauto;
    intros H; split; try reflexivity; intros l' E; try discriminate;
    injection E as <-; simpl; auto.
Qed.

Lemma outputs_of (P : event -> Prop) tr :
  (forall ev, P ev ->
     is_file ev = false /\ forall l, ev = Print l -> is_output_line l) ->
  Forall P tr ->
  file_free tr /\ Forall is_output_line (stdout tr).
Proof.
  intros HP H. induction H as [| ev tr Hev _ [IHf IHo]].
  - split; [reflexivity | constructor].
  - destruct (HP _ Hev) as [Hfile Hout]. split.
    + unfold file_free in *. simpl. now rewrite Hfile, IHf.
    + destruct ev; simpl; try assumption.
      constructor; [apply Hout; reflexivity | assumption].
Qed.

(** C10, as the code has it.  In every run the script opens, writes and
    deletes no file: each of its effects is a print, a library call or
    the exception that ends it; and every line it prints is ['Fitting
    model'], ['Testing model'], a training loss or the final test loss
    and ROC-AUC. *)
Theorem script_outputs s o s' tr :
  script s = (o, s', tr) ->
  file_free tr /\
  (forall ev, In ev tr ->
     (exists l, ev = Print l) \/ (exists f, ev = Call f)
     \/ (exists ex, ev = Raised ex)) /\
  Forall is_output_line (stdout tr).
Proof.
  intros H. apply script_run in H.
  destruct H as (t_load & t_build & t_fit & t_eval
                 & -> & Hl & Hb & Hf & He & _).
  destruct (outputs_of load_output Hl) as [F1 O1].
  destruct (outputs_of build_output Hb) as [F2 O2].
  destruct (outputs_of fit_output Hf) as [F3 O3].
  destruct (outputs_of evaluate_output He) as [F4 O4].
  assert (Hfree : file_free (t_load ++ t_build ++ t_fit ++ t_eval))
    by (repeat (apply file_free_app; split); assumption).
  split; [exact Hfree | split].
  - intros ev Hin. unfold file_free in Hfree.
    rewrite forallb_forall in Hfree. specialize (Hfree _ Hin).
    destruct ev as [l | f | ex | op p]; eauto. discriminate.
  - rewrite !stdout_app. repeat (apply Forall_app; split); assumption.
Qed.

End Frames.

(** C10, as stated, fails: the first line the script prints is neither a
    loss nor the final result. *)
Lemma script_prints_banners :
  ~ (forall (L : Libs) (s : tf_state) o s' tr,
        script s = (o, s', tr) ->
        forallb is_result_line (stdout tr) = true).
Proof.
  intros H.
  specialize (H Toy.libs Toy.init _ _ _ eq_refl).
  vm_compute in H. discriminate.
Qed.

(** ** The statements at work on the small implementation *)

Lemma training_loss_per_epoch_witness :
  exists tr,
    @fit_model Toy.libs Toy.loader Toy.init
      = (Ok (0, 0%Z), @mk_tf Toy.libs (-6)%Z 6, tr) /\
    @printed_losses Toy.libs (stdout tr) = [0; -3; -6]%Z.
Proof.
  destruct (@training_loss_per_epoch Toy.libs Toy.loader 3 Toy.init
              (@mk_tf Toy.libs (-6)%Z 6) [1; -1; -3; -3; -7; -5]%Z)
    as [(tr & H1 & H2 & _) _].
  - vm_compute. lia.
  - reflexivity.
  - reflexivity.
  - exists tr. split; [exact H1 | exact H2].
Defined.

Lemma exceptions_propagate_witness :
  (forall ex,
      In (Raised ex)
         [@Call (@line Toy.offline) libfn (FGraphPropPredDataset "ogbg-molhiv");
          Raised (LibraryError "no dataset")] ->
      @Raise unit (LibraryError "no dataset") = Raise ex /\
      exists pre,
        [@Call (@line Toy.offline) libfn (FGraphPropPredDataset "ogbg-molhiv");
         Raised (LibraryError "no dataset")] = pre ++ [Raised ex] /\
        fault_free pre) /\
  (forall ex,
      @Raise unit (LibraryError "no dataset") = Raise ex ->
      In (Raised ex)
         [@Call (@line Toy.offline) libfn (FGraphPropPredDataset "ogbg-molhiv");
          Raised (LibraryError "no dataset")]).
Proof.
  apply (@exceptions_propagate Toy.offline Toy.init_offline
           (Raise (LibraryError "no dataset")) Toy.init_offline).
  reflexivity.
Defined.

Lemma evaluation_preserves_model_witness :
  snd (fst (@evaluate_model Toy.libs Toy.loader Toy.init)) = Toy.init.
Proof.
  destruct (@evaluation_preserves_model Toy.libs Toy.loader Toy.init
              (fst (fst (@evaluate_model Toy.libs Toy.loader Toy.init)))
              (snd (fst (@evaluate_model Toy.libs Toy.loader Toy.init)))
              (snd (@evaluate_model Toy.libs Toy.loader Toy.init)))
    as [H _].
  - vm_compute. reflexivity.
  - exact H.
Defined.

Lemma validation_split_unused_witness :
  @after_split Toy.libs Toy.molecules
    {| train := [0; 1; 2]; valid := [3]; test := [4] |} Toy.init
  = @after_split Toy.libs Toy.molecules
      {| train := [0; 1; 2]; valid := [3; 3; 0]; test := [4] |} Toy.init.
Proof.
  apply (@validation_split_unused Toy.libs Toy.molecules
           {| train := [0; 1; 2]; valid := [3]; test := [4] |}
           {| train := [0; 1; 2]; valid := [3; 3; 0]; test := [4] |}
           [Toy.molecule 3]
           [Toy.molecule 3; Toy.molecule 3; Toy.molecule 0]);
    reflexivity.
Defined.

Lemma script_outputs_witness :
  file_free (snd (@script Toy.libs Toy.init)) /\
  Forall (@is_output_line Toy.libs) (stdout (snd (@script Toy.libs Toy.init))).
Proof.
  destruct (@script_outputs Toy.libs Toy.init
              (fst (fst (@script Toy.libs Toy.init)))
              (snd (fst (@script Toy.libs Toy.init)))
              (snd (@script Toy.libs Toy.init))) as (H1 & _ & H2).
  - vm_compute. reflexivity.
  - split; [exact H1 | exact H2].
Defined.

(** ** Further properties of the training loop *)

Section TrainingRuns.

Context {L : Libs}.

(** Any run of a training step, failed or not, prints nothing, and a
    failed one has written nothing. *)
Lemma train_step_run batch s o s' tr :
  train_step batch s = (o, s', tr) ->
  stdout tr = [] /\ (forall ex, o = Raise ex -> s' = s).
Proof.
  destruct batch as [inputs target]. unfold train_step. intros H.
  run_inv H; subst; simpl; split; try reflexivity; intros; try reflexivity;
    discriminate.
Qed.

Lemma total_snoc (pending : list Loss) (l : Loss) :
  total (pending ++ [l]) = add (total pending) l.
Proof. unfold total. now rewrite fold_left_app. Qed.

Lemma epoch_means_short steps (ls : list Loss) :
  length ls < steps -> epoch_means steps ls = [].
Proof.
  intros H. unfold epoch_means. now rewrite Nat.div_small.
Qed.

(** The loop from the middle of an epoch: [pending] are the losses of
    the epoch so far. *)
Lemma fit_loop_from steps bs : forall pending s o s' tr,
  length pending < steps ->
  fit_loop steps bs (length pending) (total pending) s = (o, s', tr) ->
  stdout tr =
    map LossLine (epoch_means steps (pending ++ fst (train_prefix bs s))) /\
  s' = snd (train_prefix bs s) /\
  (forall c m, o = Ok (c, m) ->
     train_steps bs s = Some (train_prefix bs s) /\
     c = length (pending ++ fst (train_prefix bs s)) mod steps /\
     m = total (skipn (length (pending ++ fst (train_prefix bs s))
                         / steps * steps)
                      (pending ++ fst (train_prefix bs s)))).
Proof.
  induction bs as [| b bs IH]; intros pending s o s' tr Hlt H.
  - simpl in H. unfold ret in H. injection H as <- <- <-. simpl.
    rewrite app_nil_r, epoch_means_short by assumption.
    split; [reflexivity |]. split; [reflexivity |].
    intros c m E. injection E as <- <-.
    rewrite Nat.mod_small, Nat.div_small by assumption.
    repeat split; reflexivity.
  - simpl in H. apply bind_inv in H.
    destruct H as [(ex & Hb & ->) | (l & s1 & t1 & t2 & Hb & H & ->)].
    + pose proof Hb as Hq. apply train_step_run in Hq. destruct Hq as [Hq _].
      simpl. rewrite Hb. simpl.
      rewrite app_nil_r, epoch_means_short by assumption.
      split; [exact Hq |]. split; [reflexivity |]. intros; discriminate.
    + pose proof Hb as Hq. apply train_step_run in Hq. destruct Hq as [Hq _].
      assert (Hpre : train_prefix (b :: bs) s
                     = (l :: fst (train_prefix bs s1),
                        snd (train_prefix bs s1)))
        by (simpl; rewrite Hb; reflexivity).
      rewrite Hpre. simpl fst. simpl snd. rewrite stdout_app, Hq. simpl app.
      replace (pending ++ l :: fst (train_prefix bs s1))
        with ((pending ++ [l]) ++ fst (train_prefix bs s1))
        by (rewrite <- app_assoc; reflexivity).
      assert (Hsnoc : length (pending ++ [l]) = length pending + 1)
        by (rewrite length_app; reflexivity).
      destruct (length pending + 1 =? steps) eqn:E.
      * apply Nat.eqb_eq in E.
        apply bind_inv in H.
        destruct H as [(ex & Hp & _) | (u & s2 & t3 & t4 & Hp & H & ->)];
          unfold print in Hp; [discriminate |].
        injection Hp as _ <- <-.
        apply (IH []) in H; [| simpl; lia].
        destruct H as (Hout & Hst & Hret). simpl app in Hout, Hret.
        rewrite epoch_means_app by lia. simpl. rewrite Hout, total_snoc.
        split; [reflexivity |]. split; [exact Hst |].
        intros c m Eo. destruct (Hret c m Eo) as (Hts & -> & ->).
        split; [simpl; rewrite Hb, Hts; destruct (train_prefix bs s1); reflexivity |].
        rewrite length_app, Hsnoc, E.
        replace (steps + length (fst (train_prefix bs s1)))
          with (length (fst (train_prefix bs s1)) + 1 * steps) by lia.
        rewrite Nat.Div0.mod_add, Nat.div_add by lia.
        split; [reflexivity |]. f_equal.
        rewrite Nat.mul_add_distr_r, Nat.mul_1_l.
        generalize (length (fst (train_prefix bs s1)) / steps * steps).
        intros k. rewrite skipn_app, Hsnoc, E.
        rewrite (@skipn_all2 _ (k + steps) (pending ++ [l]))
          by (rewrite Hsnoc; lia).
        simpl. f_equal. lia.
      * apply Nat.eqb_neq in E.
        rewrite <- Hsnoc, <- total_snoc in H.
        apply IH in H; [| lia].
        destruct H as (Hout & Hst & Hret).
        split; [exact Hout |]. split; [exact Hst |].
        intros c m Eo. destruct (Hret c m Eo) as (Hts & Hc & Hm).
        split; [simpl; rewrite Hb, Hts; destruct (train_prefix bs s1); reflexivity |].
        split; assumption.
Qed.

(** With [steps_per_epoch = 0] the counter never matches and no loss is
    printed. *)
Lemma fit_loop_no_epoch bs : forall c m s o s' tr,
  fit_loop 0 bs c m s = (o, s', tr) ->
  stdout tr = [] /\ s' = snd (train_prefix bs s).
Proof.
  induction bs as [| b bs IH]; intros c m s o s' tr H; simpl in H.
  - unfold ret in H. injection H as <- <- <-. auto.
  - apply bind_inv in H.
    destruct H as [(ex & Hb & ->) | (l & s1 & t1 & t2 & Hb & H & ->)];
      pose proof Hb as Hq; apply train_step_run in Hq; destruct Hq as [Hq _];
      simpl; rewrite Hb; simpl.
    + auto.
    + replace (c + 1 =? 0) with false in H
        by (symmetry; apply Nat.eqb_neq; lia).
      apply IH in H. destruct H as [Hout Hst].
      rewrite stdout_app, Hq, Hout. auto.
Qed.



(** X3.  When the loop returns, every training step has returned,
    [current_batch] is the number of batches modulo [steps_per_epoch] and
    [model_loss] is the sum of the losses of the unfinished epoch: [0] and
    [0] exactly when the batches make whole epochs. *)
Theorem fit_loop_final_counters steps bs s c m s' tr :
  0 < steps ->
  fit_loop steps bs 0 zero s = (Ok (c, m), s', tr) ->
  exists ls,
    train_steps bs s = Some (ls, s') /\
    c = length bs mod steps /\
    m = total (skipn (length bs / steps * steps) ls).
Proof.
  intros Hpos H.
  apply (@fit_loop_from steps bs []) in H; [| simpl; lia].
  destruct H as (_ & Hst & Hret). simpl app in Hret.
  destruct (Hret c m eq_refl) as (Hts & Hc & Hm).
  destruct (train_prefix bs s) as [ls st] eqn:Epre. simpl in *.
  exists ls. subst s'.
  assert (Hlen : length ls = length bs) by (eapply train_steps_length, Hts).
  rewrite Hlen in Hc, Hm. auto.
Qed.

End TrainingRuns.

(** ** Further properties of the evaluation and of whole runs *)

Section WholeRuns.

Context {L : Libs}.

Lemma eval_loop_inv bs : forall y_true y_pred s a b s' tr,
  eval_loop bs y_true y_pred s = (Ok (a, b), s', tr) ->
  exists ps,
    predictions (variables s) bs = Some ps /\
    a = y_true ++ map snd bs /\ b = y_pred ++ ps.
Proof.
  induction bs as [| [inputs target] bs IH];
    intros y_true y_pred s a b s' tr H; simpl in H.
  - unfold ret in H. injection H as <- <- _ _. exists [].
    now rewrite !app_nil_r.
  - apply bind_inv in H.
    destruct H as [(ex & _ & Ho) | (s0 & s1 & t1 & t2 & Hg & H & _)];
      [discriminate |].
    unfold get in Hg. injection Hg as <- <- _.
    apply bind_inv in H.
    destruct H as [(ex & _ & Ho) | (p & s2 & t3 & t4 & Hc & H & _)];
      [discriminate |].
    apply call_inv in Hc. destruct Hc as (-> & Hp & _).
    apply IH in H. destruct H as (ps & Hps & -> & ->).
    exists (p :: ps). simpl. rewrite Hp, Hps, <- !app_assoc. auto.
Qed.

(** The evaluation loop prints nothing, however it ends. *)
Lemma eval_loop_quiet bs : forall y_true y_pred s o s' tr,
  eval_loop bs y_true y_pred s = (o, s', tr) -> stdout tr = [].
Proof.
  induction bs as [| [inputs target] bs IH];
    intros y_true y_pred s o s' tr H; simpl in H.
  - unfold ret in H. now injection H as _ _ <-.
  - apply bind_inv in H.
    destruct H as [(ex & Hg & _) | (s0 & s1 & t1 & t2 & Hg & H & ->)];
      unfold get in Hg; [discriminate |].
    injection Hg as _ _ <-.
    apply bind_inv in H.
    destruct H as [(ex & Hc & _) | (p & s2 & t3 & t4 & Hc & H & ->)];
      apply call_inv in Hc; destruct Hc as (_ & _ & ->).
    + reflexivity.
    + simpl. eapply IH, H.
Qed.

(** What a run of the evaluation phase that returns has done. *)
Lemma evaluate_model_inv loader_te s s' tr :
  evaluate_model loader_te s = (Ok tt, s', tr) ->
  exists evaluator ps Y_true Y_pred l auc,
    Evaluator dataset_name = Ok evaluator /\
    predictions (variables s) (batches loader_te) = Some ps /\
    vstack (map snd (batches loader_te)) = Ok Y_true /\
    vstack ps = Ok Y_pred /\
    loss_fn Y_true Y_pred = Ok l /\
    eval evaluator Y_true Y_pred = Ok auc /\
    s' = s /\
    tr = Print (Text "Testing model")
           :: Call (FEvaluator dataset_name)
           :: repeat (Call (Fmodel false)) (length (batches loader_te))
           ++ [Call Fvstack; Call Fvstack; Call Floss_fn; Call Feval;
               Print (DoneLine l auc)].
Proof.
  unfold evaluate_model. intros H.
  apply bind_inv in H.
  destruct H as [(ex & _ & Ho) | (u & s1 & t1 & r1 & Hp & H & ->)];
    [discriminate |].
  unfold print in Hp. injection Hp as _ <- <-.
  apply bind_inv in H.
  destruct H as [(ex & _ & Ho) | (evaluator & s2 & t2 & r2 & Hc & H & ->)];
    [discriminate |].
  apply call_inv in Hc. destruct Hc as (-> & Hev & ->).
  apply bind_inv in H.
  destruct H as [(ex & _ & Ho) | ([yt yp] & s3 & t3 & r3 & Hl & H & ->)];
    [discriminate |].
  pose proof Hl as Hinv. apply eval_loop_inv in Hinv.
  destruct Hinv as (ps & Hps & -> & ->). simpl in Hl, H.
  rewrite (eval_loop_ok _ s [] [] Hps) in Hl. injection Hl as <- <-.
  apply bind_inv in H.
  destruct H as [(ex & _ & Ho) | (Y_true & s4 & t4 & r4 & Hc & H & ->)];
    [discriminate |].
  apply call_inv in Hc. destruct Hc as (-> & Hyt & ->).
  apply bind_inv in H.
  destruct H as [(ex & _ & Ho) | (Y_pred & s5 & t5 & r5 & Hc & H & ->)];
    [discriminate |].
  apply call_inv in Hc. destruct Hc as (-> & Hyp & ->).
  apply bind_inv in H.
  destruct H as [(ex & _ & Ho) | (l & s6 & t6 & r6 & Hc & H & ->)];
    [discriminate |].
  apply call_inv in Hc. destruct Hc as (-> & Hloss & ->).
  apply bind_inv in H.
  destruct H as [(ex & _ & Ho) | (auc & s7 & t7 & r7 & Hc & H & ->)];
    [discriminate |].
  apply call_inv in Hc. destruct Hc as (-> & Hauc & ->).
  unfold print in H. injection H as <- <-.
  exists evaluator, ps, Y_true, Y_pred, l, auc.
  repeat split; assumption.
Qed.

(** X4.  The evaluation phase returns exactly when the evaluator is
    created, every forward pass returns, both stacks exist and the loss
    and the metric are computed.  It then prints ['Testing model'] and
    one final line with the value of [loss_fn] on the stacked targets and
    predictions, without the regularisation losses the training loss
    adds, and the value the evaluator returned, unchanged; the forward
    passes are all at the variables the phase started with, in the order
    of the batches and before any stacking. *)
Theorem evaluate_model_returns loader_te s s' tr :
  evaluate_model loader_te s = (Ok tt, s', tr) <->
  exists evaluator ps Y_true Y_pred l auc,
    Evaluator dataset_name = Ok evaluator /\
    predictions (variables s) (batches loader_te) = Some ps /\
    vstack (map snd (batches loader_te)) = Ok Y_true /\
    vstack ps = Ok Y_pred /\
    loss_fn Y_true Y_pred = Ok l /\
    eval evaluator Y_true Y_pred = Ok auc /\
    s' = s /\
    tr = Print (Text "Testing model")
           :: Call (FEvaluator dataset_name)
           :: repeat (Call (Fmodel false)) (length (batches loader_te))
           ++ [Call Fvstack; Call Fvstack; Call Floss_fn; Call Feval;
               Print (DoneLine l auc)].
Proof.
  split; [apply evaluate_model_inv |].
  intros (evaluator & ps & Y_true & Y_pred & l & auc
          & Hev & Hps & Hyt & Hyp & Hloss & Hauc & -> & ->).
  unfold evaluate_model. cbv [bind print call].
  rewrite Hev, (eval_loop_ok _ s [] [] Hps). simpl app.
  rewrite Hyt, Hyp, Hloss, Hauc. reflexivity.
Qed.

(** X5.  On a test loader that yields no batch the evaluation phase
    never returns: once the evaluator exists, stacking the empty list of
    targets raises [ValueError]; only ['Testing model'] is printed, and
    neither the test loss nor the metric is computed. *)
Theorem evaluation_of_empty_test_set loader_te s o s' tr :
  batches loader_te = [] ->
  evaluate_model loader_te s = (o, s', tr) ->
  stdout tr = [Text "Testing model"] /\
  (forall evaluator, Evaluator dataset_name = Ok evaluator ->
     o = Raise ValueError) /\
  (forall ex, Evaluator dataset_name = Raise ex -> o = Raise ex) /\
  ~ In (Call Floss_fn) tr /\ ~ In (Call Feval) tr.
Proof.
  intros Hempty H. unfold evaluate_model in H. rewrite Hempty in H.
  cbv [bind print call eval_loop ret vstack] in H.
  destruct (Evaluator dataset_name) as [evaluator | ex];
    injection H as <- <- <-; simpl;
    (split; [reflexivity |]); (split; [intros; congruence |]);
    (split; [intros; congruence |]);
    split; intros Hin; simpl in Hin;
    repeat (destruct Hin as [Hin | Hin]; [discriminate |]); exact Hin.
Qed.

Lemma stdout_calls (f : libfn) n :
  stdout (repeat (@Call line libfn f) n) = [].
Proof. induction n; simpl; auto. Qed.

Lemma load_quiet (tr : list event) : Forall load_event tr -> stdout tr = [].
Proof.
  induction 1 as [| ev tr Hev _ IH]; [reflexivity |].
  destruct ev as [l | f | ex | op p]; simpl in *; try assumption.
  contradiction.
Qed.

Lemma build_quiet (tr : list event) : Forall build_event tr -> stdout tr = [].
Proof.
  induction 1 as [| ev tr Hev _ IH]; [reflexivity |].
  destruct ev as [l | f | ex | op p]; simpl in *; try assumption.
  contradiction.
Qed.

Lemma build_model_inv dataset s s' tr :
  build_model dataset s = (Ok tt, s', tr) ->
  exists vars opt,
    Model (n_node_features dataset) (n_edge_features dataset)
          (n_labels dataset) = Ok vars /\
    Adam learning_rate = Ok opt /\
    s' = {| variables := vars; slots := opt |}.
Proof.
  unfold build_model. intros H. run_inv H. subst.
  eexists _, _. repeat split; eassumption.
Qed.

(** A fitting loop that returns has run every training step. *)
Lemma fit_loop_ok_steps steps bs : forall c m s r s' tr,
  fit_loop steps bs c m s = (Ok r, s', tr) ->
  train_steps bs s = Some (train_prefix bs s).
Proof.
  induction bs as [| b bs IH]; intros c m s r s' tr H; simpl in H.
  - reflexivity.
  - apply bind_inv in H.
    destruct H as [(ex & _ & Ho) | (l & s1 & t1 & t2 & Hb & H & _)];
      [discriminate |].
    assert (Hrest : train_steps bs s1 = Some (train_prefix bs s1)).
    { destruct (c + 1 =? steps); [| eapply IH, H].
      apply bind_inv in H.
      destruct H as [(ex & _ & Ho) | (u & s2 & t3 & t4 & Hp & H & _)];
        [discriminate |].
      unfold print in Hp. injection Hp as _ <- _. eapply IH, H. }
    simpl. rewrite Hb, Hrest. destruct (train_prefix bs s1). reflexivity.
Qed.

Lemma fit_model_inv loader_tr s r s' tr :
  fit_model loader_tr s = (Ok r, s', tr) ->
  exists ls,
    train_steps (batches loader_tr) s = Some (ls, s') /\
    stdout tr = Text "Fitting model"
                  :: map LossLine (epoch_means (steps_per_epoch loader_tr) ls).
Proof.
  unfold fit_model. intros H. apply bind_inv in H.
  destruct H as [(ex & _ & Ho) | (u & s1 & t1 & t2 & Hp & H & ->)];
    [discriminate |].
  unfold print in Hp. injection Hp as _ <- <-.
  pose proof H as Hsteps. apply fit_loop_ok_steps in Hsteps.
  assert (Hrun : stdout t2
                 = map LossLine
                     (epoch_means (steps_per_epoch loader_tr)
                        (fst (train_prefix (batches loader_tr) s)))
                 /\ s' = snd (train_prefix (batches loader_tr) s)).
  { destruct (steps_per_epoch loader_tr) as [| k].
    - apply fit_loop_no_epoch in H. destruct H as [-> ->].
      split; reflexivity.
    - apply (@fit_loop_from _ (S k) (batches loader_tr) []) in H;
        [| simpl; lia].
      destruct H as (Hout & Hst & _). auto. }
  destruct Hrun as [Hout ->].
  exists (fst (train_prefix (batches loader_tr) s)). split.
  - rewrite Hsteps. destruct (train_prefix (batches loader_tr) s).
    reflexivity.
  - simpl. now rewrite Hout.
Qed.

(** X6.  A run of the script that returns has loaded the dataset, built
    the three splits, created the model and the optimizer, run a training
    step on every batch of the training loader starting from the freshly
    built model, and evaluated at the variables the last step left, which
    are also the final ones.  Its output is ['Fitting model'], the mean
    loss of each finished epoch, ['Testing model'] and one final line,
    in this order and nothing else. *)
Theorem script_returns s s' tr :
  script s = (Ok tt, s', tr) ->
  exists ogb_dataset dataset idx dataset_tr dataset_va dataset_te
         vars opt ls l auc,
    GraphPropPredDataset dataset_name = Ok ogb_dataset /\
    OGB ogb_dataset = Ok dataset /\
    get_idx_split ogb_dataset = Ok idx /\
    getitem dataset (train idx) = Ok dataset_tr /\
    getitem dataset (valid idx) = Ok dataset_va /\
    getitem dataset (test idx) = Ok dataset_te /\
    Model (n_node_features dataset) (n_edge_features dataset)
          (n_labels dataset) = Ok vars /\
    Adam learning_rate = Ok opt /\
    let loader_tr := DisjointLoader shuffle dataset_tr batch_size epochs in
    let loader_te := DisjointLoader (fun k => shuffle (epochs + k))
                       dataset_te batch_size 1 in
    train_steps (batches loader_tr) {| variables := vars; slots := opt |}
      = Some (ls, s') /\
    (exists tr_eval,
        evaluate_model loader_te s' = (Ok tt, s', tr_eval) /\
        stdout tr_eval = [Text "Testing model"; DoneLine l auc]) /\
    stdout tr =
      Text "Fitting model"
        :: map LossLine (epoch_means (steps_per_epoch loader_tr) ls)
        ++ [Text "Testing model"; DoneLine l auc].
Proof.
  unfold script. intros H.
  apply bind_inv in H.
  destruct H as [(ex & _ & Ho) | (ogb & s1 & t1 & r1 & Hc & H & ->)];
    [discriminate |].
  apply call_inv in Hc. destruct Hc as (-> & Eogb & ->).
  apply bind_inv in H.
  destruct H as [(ex & _ & Ho) | (dataset & s2 & t2 & r2 & Hc & H & ->)];
    [discriminate |].
  apply call_inv in Hc. destruct Hc as (-> & Eds & ->).
  apply bind_inv in H.
  destruct H as [(ex & _ & Ho) | (idx & s3 & t3 & r3 & Hc & H & ->)];
    [discriminate |].
  apply call_inv in Hc. destruct Hc as (-> & Eidx & ->).
  unfold after_split in H. apply bind_inv in H.
  destruct H as [(ex & _ & Ho) | ([ltr lte] & s4 & t4 & r4 & Hsp & H & ->)];
    [discriminate |].
  pose proof Hsp as Hq4. apply train_test_split_runs in Hq4.
  destruct Hq4 as [Hq4 _]. apply load_quiet in Hq4.
  apply train_test_split_ok in Hsp.
  destruct Hsp as (dataset_tr & dataset_va & dataset_te
                   & Etr & Eva & Ete & -> & -> & ->).
  apply bind_inv in H.
  destruct H as [(ex & _ & Ho) | (u5 & s5 & t5 & r5 & Hbu & H & ->)];
    [discriminate |].
  destruct u5.
  pose proof Hbu as Hq5. apply build_model_runs in Hq5.
  destruct Hq5 as [Hq5 _]. apply build_quiet in Hq5.
  apply build_model_inv in Hbu. destruct Hbu as (vars & opt & Evars & Eopt & ->).
  apply bind_inv in H.
  destruct H as [(ex & _ & Ho) | (u6 & s6 & t6 & r6 & Hfi & H & ->)];
    [discriminate |].
  apply fit_model_inv in Hfi. destruct Hfi as (ls & Hsteps & Hq6).
  pose proof H as Hev. apply evaluate_model_inv in Hev.
  destruct Hev as (evaluator & ps & Y_true & Y_pred & l & auc
                   & _ & _ & _ & _ & _ & _ & -> & Htr).
  assert (Hq7 : stdout r6 = [Text "Testing model"; DoneLine l auc]).
  { rewrite Htr.
    match goal with
    | |- stdout (?a :: ?b :: ?x ++ ?y) = _ =>
        change (stdout ([a; b] ++ x ++ y) = [Text "Testing model"; DoneLine l auc])
    end.
    rewrite !stdout_app, stdout_calls. reflexivity. }
  exists ogb, dataset, idx, dataset_tr, dataset_va, dataset_te,
    vars, opt, ls, l, auc.
  do 8 (split; [assumption |]). split; [exact Hsteps |]. split.
  - exists r6. split; assumption.
  - rewrite !stdout_app, Hq4, Hq5, Hq6, Hq7. reflexivity.
Qed.

(** Whatever its outcome, the fitting phase prints its banner and then
    loss lines only. *)
Lemma fit_model_out loader_tr s o s' tr :
  fit_model loader_tr s = (o, s', tr) ->
  exists ls, stdout tr = Text "Fitting model" :: map LossLine ls.
Proof.
  unfold fit_model. intros H. apply bind_inv in H.
  destruct H as [(ex & Hp & _) | (u & s1 & t1 & t2 & Hp & H & ->)];
    unfold print in Hp; [discriminate |].
  injection Hp as _ <- <-.
  destruct (steps_per_epoch loader_tr) as [| k].
  - apply fit_loop_no_epoch in H. destruct H as [Hout _].
    exists []. simpl. now rewrite Hout.
  - apply (@fit_loop_from _ (S k) (batches loader_tr) []) in H;
      [| simpl; lia].
    destruct H as (Hout & _). eexists. simpl. rewrite Hout. reflexivity.
Qed.

(** An evaluation phase that raises has printed its banner only. *)
Lemma evaluate_model_raise_out loader_te s ex s' tr :
  evaluate_model loader_te s = (Raise ex, s', tr) ->
  stdout tr = [Text "Testing model"].
Proof.
  unfold evaluate_model. intros H.
  apply bind_inv in H.
  destruct H as [(e0 & Hp & _) | (u & s1 & t1 & r1 & Hp & H & ->)];
    unfold print in Hp; [discriminate |].
  injection Hp as _ <- <-.
  apply bind_inv in H.
  destruct H as [(e0 & Hc & _) | (ev & s2 & t2 & r2 & Hc & H & ->)];
    apply call_inv in Hc; destruct Hc as (_ & _ & ->); [reflexivity |].
  apply bind_inv in H.
  destruct H as [(e0 & Hl & _) | ([yt yp] & s3 & t3 & r3 & Hl & H & ->)];
    apply eval_loop_quiet in Hl; [simpl; now rewrite Hl |].
  apply bind_inv in H.
  destruct H as [(e0 & Hc & _) | (Yt & s4 & t4 & r4 & Hc & H & ->)];
    apply call_inv in Hc; destruct Hc as (_ & _ & ->);
    [simpl; now rewrite stdout_app, Hl |].
  apply bind_inv in H.
  destruct H as [(e0 & Hc & _) | (Yp & s5 & t5 & r5 & Hc & H & ->)];
    apply call_inv in Hc; destruct Hc as (_ & _ & ->);
    [simpl; now rewrite stdout_app, Hl |].
  apply bind_inv in H.
  destruct H as [(e0 & Hc & _) | (l & s6 & t6 & r6 & Hc & H & ->)];
    apply call_inv in Hc; destruct Hc as (_ & _ & ->);
    [simpl; now rewrite stdout_app, Hl |].
  apply bind_inv in H.
  destruct H as [(e0 & Hc & _) | (auc & s7 & t7 & r7 & Hc & H & ->)];
    apply call_inv in Hc; destruct Hc as (_ & _ & ->);
    [simpl; now rewrite stdout_app, Hl |].
  unfold print in H. discriminate.
Qed.

(** X8.  A run of the script that fails never prints the final line with
    the test loss and ROC-AUC: what it has printed is nothing (it failed
    while loading the data or building the model), or ['Fitting model']
    and the losses of the epochs finished so far (it failed in a training
    step), or these followed by ['Testing model'] (it failed during
    evaluation). *)
Theorem failed_run_output s ex s' tr :
  script s = (Raise ex, s', tr) ->
  exists ls,
    stdout tr = [] \/
    stdout tr = Text "Fitting model" :: map LossLine ls \/
    stdout tr = Text "Fitting model" :: map LossLine ls
                  ++ [Text "Testing model"].
Proof.
  unfold script. intros H.
  apply bind_inv in H.
  destruct H as [(e0 & Hc & _) | (ogb & s1 & t1 & r1 & Hc & H & ->)];
    apply call_inv in Hc; destruct Hc as (_ & _ & ->);
    [exists []; left; reflexivity |].
  apply bind_inv in H.
  destruct H as [(e0 & Hc & _) | (dataset & s2 & t2 & r2 & Hc & H & ->)];
    apply call_inv in Hc; destruct Hc as (_ & _ & ->);
    [exists []; left; reflexivity |].
  apply bind_inv in H.
  destruct H as [(e0 & Hc & _) | (idx & s3 & t3 & r3 & Hc & H & ->)];
    apply call_inv in Hc; destruct Hc as (_ & _ & ->);
    [exists []; left; reflexivity |].
  unfold after_split in H. apply bind_inv in H.
  destruct H as [(e0 & Hsp & _) | ([ltr lte] & s4 & t4 & r4 & Hsp & H & ->)];
    apply train_test_split_runs in Hsp; destruct Hsp as [Hq4 _];
    apply load_quiet in Hq4;
    [exists []; left; simpl; exact Hq4 |].
  apply bind_inv in H.
  destruct H as [(e0 & Hbu & _) | (u5 & s5 & t5 & r5 & Hbu & H & ->)];
    apply build_model_runs in Hbu; destruct Hbu as [Hq5 _];
    apply build_quiet in Hq5;
    [exists []; left; simpl; now rewrite stdout_app, Hq4, Hq5 |].
  apply bind_inv in H.
  destruct H as [(e0 & Hfi & _) | (u6 & s6 & t6 & r6 & Hfi & H & ->)];
    apply fit_model_out in Hfi; destruct Hfi as (ls & Hq6); exists ls.
  - right. left. simpl. now rewrite !stdout_app, Hq4, Hq5, Hq6.
  - right. right. apply evaluate_model_raise_out in H.
    simpl. now rewrite !stdout_app, Hq4, Hq5, Hq6, H.
Qed.

End WholeRuns.

(** ** The further statements at work on the small implementation *)


Lemma fit_loop_final_counters_witness :
  exists ls : list Z,
    @train_steps Toy.libs (batches Toy.loader) Toy.init
      = Some (ls, @mk_tf Toy.libs (-6)%Z 6) /\
    2 = length (batches Toy.loader) mod 4 /\
    (-12)%Z = @total Toy.libs
                (skipn (length (batches Toy.loader) / 4 * 4) ls).
Proof.
  apply (@fit_loop_final_counters Toy.libs 4 (batches Toy.loader) Toy.init
           2 (-12)%Z (@mk_tf Toy.libs (-6)%Z 6)
           (snd (@fit_loop Toy.libs 4 (batches Toy.loader) 0 0%Z Toy.init))).
  - lia.
  - vm_compute. reflexivity.
Defined.

Lemma evaluate_model_returns_witness :
  exists (l : Z) (auc : Q),
    stdout (snd (@evaluate_model Toy.libs Toy.loader Toy.init))
    = [@Text Toy.libs "Testing model"; @DoneLine Toy.libs l auc].
Proof.
  destruct (proj1 (@evaluate_model_returns Toy.libs Toy.loader Toy.init
                     Toy.init
                     (snd (@evaluate_model Toy.libs Toy.loader Toy.init))))
    as (ev & ps & Yt & Yp & l & auc & _ & _ & _ & _ & _ & _ & _ & H).
  - vm_compute. reflexivity.
  - exists l, auc. rewrite H. reflexivity.
Defined.

Lemma evaluation_of_empty_test_set_witness :
  fst (fst (@evaluate_model Toy.libs (mk_loader [] 0) Toy.init))
  = Raise ValueError.
Proof.
  destruct (@evaluation_of_empty_test_set Toy.libs (mk_loader [] 0) Toy.init
              (fst (fst (@evaluate_model Toy.libs (mk_loader [] 0) Toy.init)))
              (snd (fst (@evaluate_model Toy.libs (mk_loader [] 0) Toy.init)))
              (snd (@evaluate_model Toy.libs (mk_loader [] 0) Toy.init)))
    as (_ & H & _).
  - reflexivity.
  - vm_compute. reflexivity.
  - apply (H tt). reflexivity.
Defined.

Lemma script_returns_witness :
  exists (ls : list Z) (l : Z) (auc : Q),
    length ls = 10 /\
    stdout (snd (@script Toy.libs Toy.init))
    = @Text Toy.libs "Fitting model"
        :: map (@LossLine Toy.libs) (@epoch_means Toy.libs 1 ls)
        ++ [@Text Toy.libs "Testing model"; @DoneLine Toy.libs l auc].
Proof.
  destruct (@script_returns Toy.libs Toy.init
              (@mk_tf Toy.libs (-2)%Z 10)
              (snd (@script Toy.libs Toy.init)))
    as (ogb & dataset & idx & dtr & dva & dte & vars & opt & ls & l & auc
        & E1 & E2 & E3 & E4 & _ & _ & _ & _ & Hsteps & _ & Hout).
  - vm_compute. reflexivity.
  - exists ls, l, auc.
    injection E1 as <-. injection E2 as <-. injection E3 as <-.
    injection E4 as <-. split.
    + apply train_steps_length in Hsteps. exact Hsteps.
    + exact Hout.
Defined.

Lemma failed_run_output_witness :
  exists ls : list Z,
    @stdout (@line Toy.offline) libfn
      [Call (FGraphPropPredDataset "ogbg-molhiv");
       Raised (LibraryError "no dataset")] = [] \/
    @stdout (@line Toy.offline) libfn
      [Call (FGraphPropPredDataset "ogbg-molhiv");
       Raised (LibraryError "no dataset")]
    = @Text Toy.offline "Fitting model" :: map (@LossLine Toy.offline) ls \/
    @stdout (@line Toy.offline) libfn
      [Call (FGraphPropPredDataset "ogbg-molhiv");
       Raised (LibraryError "no dataset")]
    = @Text Toy.offline "Fitting model" :: map (@LossLine Toy.offline) ls
        ++ [@Text Toy.offline "Testing model"].
Proof.
  apply (@failed_run_output Toy.offline Toy.init_offline
           (LibraryError "no dataset") Toy.init_offline).
  reflexivity.
Defined.

(** ** The order of the phases, the hyper-parameters and the test rows *)

Section ScriptRuns.

Context {L : Libs}.

Lemma train_test_split_trace dataset idx s v s' tr :
  train_test_split dataset idx s = (Ok v, s', tr) ->
  tr = [Call Fgetitem; Call Fgetitem; Call Fgetitem;
        Call (FDisjointLoader batch_size epochs);
        Call (FDisjointLoader batch_size 1)].
Proof.
  unfold train_test_split. intros H. run_inv H. subst. reflexivity.
Qed.

Lemma build_model_trace dataset s s' tr :
  build_model dataset s = (Ok tt, s', tr) -> tr = build_calls.
Proof.
  unfold build_model. intros H. run_inv H. subst. reflexivity.
Qed.




Lemma build_calls_ok : Forall build_event build_calls.
Proof.
  unfold build_calls. repeat (apply Forall_cons; [simpl; auto |]).
  constructor.
Qed.




(** What a run of the script that returns is made of. *)
Lemma script_ok_inv s s' tr :
  script s = (Ok tt, s', tr) ->
  exists ogb_dataset dataset idx dataset_tr dataset_te vars opt r t_fit t_eval,
    GraphPropPredDataset dataset_name = Ok ogb_dataset /\
    OGB ogb_dataset = Ok dataset /\
    get_idx_split ogb_dataset = Ok idx /\
    getitem dataset (train idx) = Ok dataset_tr /\
    getitem dataset (test idx) = Ok dataset_te /\
    Model (n_node_features dataset) (n_edge_features dataset)
          (n_labels dataset) = Ok vars /\
    Adam learning_rate = Ok opt /\
    fit_model (DisjointLoader shuffle dataset_tr batch_size epochs)
      {| variables := vars; slots := opt |} = (Ok r, s', t_fit) /\
    evaluate_model (DisjointLoader (fun k => shuffle (epochs + k))
                      dataset_te batch_size 1) s' = (Ok tt, s', t_eval) /\
    tr = load_calls ++ build_calls ++ t_fit ++ t_eval.
Proof.
  unfold script. intros H.
  apply bind_inv in H.
  destruct H as [(ex & _ & Ho) | (ogb & s1 & t1 & r1 & Hc & H & ->)];
    [discriminate |].
  apply call_inv in Hc. destruct Hc as (-> & Eogb & ->).
  apply bind_inv in H.
  destruct H as [(ex & _ & Ho) | (dataset & s2 & t2 & r2 & Hc & H & ->)];
    [discriminate |].
  apply call_inv in Hc. destruct Hc as (-> & Eds & ->).
  apply bind_inv in H.
  destruct H as [(ex & _ & Ho) | (idx & s3 & t3 & r3 & Hc & H & ->)];
    [discriminate |].
  apply call_inv in Hc. destruct Hc as (-> & Eidx & ->).
  unfold after_split in H. apply bind_inv in H.
  destruct H as [(ex & _ & Ho) | ([ltr lte] & s4 & t4 & r4 & Hsp & H & ->)];
    [discriminate |].
  pose proof Hsp as Ht4. apply train_test_split_trace in Ht4. subst t4.
  apply train_test_split_ok in Hsp.
  destruct Hsp as (dataset_tr & dataset_va & dataset_te
                   & Etr & Eva & Ete & -> & -> & ->).
  apply bind_inv in H.
  destruct H as [(ex & _ & Ho) | (u5 & s5 & t5 & r5 & Hbu & H & ->)];
    [discriminate |].
  destruct u5.
  pose proof Hbu as Ht5. apply build_model_trace in Ht5. subst t5.
  apply build_model_inv in Hbu.
  destruct Hbu as (vars & opt & Evars & Eopt & ->).
  apply bind_inv in H.
  destruct H as [(ex & _ & Ho) | (u6 & s6 & t6 & r6 & Hfi & H & ->)];
    [discriminate |].
  pose proof H as Hst. apply evaluate_model_inv in Hst.
  destruct Hst as (ev & ps & Yt & Yp & l & auc
                   & _ & _ & _ & _ & _ & _ & -> & _).
  exists ogb, dataset, idx, dataset_tr, dataset_te, vars, opt, u6, t6, r6.
  do 9 (split; [assumption |]). reflexivity.
Qed.

Lemma filter_forward_calls n :
  filter is_eval_forward (repeat (@Call line libfn (Fmodel false)) n)
  = repeat (Call (Fmodel false)) n.
Proof. induction n; simpl; [| rewrite IHn]; reflexivity. Qed.

(** C5.  The dataset identifier is ['ogbg-molhiv'], the learning rate
    [1e-3], the number of epochs [10] and the batch size [32], set before
    anything else happens: the first effect of every run is to load the
    dataset of that name, and a run cannot go past a failure to load it.
    Every call that takes one of the constants receives it.  In a run
    that returns, the optimizer is the one [Adam] gives for [1e-3], the
    evaluator the one for ['ogbg-molhiv'], training makes [10] passes
    over the training split in batches of [32] and evaluation one pass
    over the test split in batches of [32]: these numbers fix how many
    training steps and forward passes are made and how many losses are
    printed. *)
Theorem hyperparameters_fixed s o s' tr :
  script s = (o, s', tr) ->
  dataset_name = "ogbg-molhiv" /\
  learning_rate = (1 # 1000)%Q /\
  epochs = 10 /\
  batch_size = 32 /\
  (exists tr', tr = Call (FGraphPropPredDataset "ogbg-molhiv") :: tr') /\
  (forall ex, GraphPropPredDataset "ogbg-molhiv" = Raise ex -> o = Raise ex) /\
  Forall configured tr /\
  (o = Ok tt ->
   exists ogb_dataset dataset idx dataset_tr dataset_te vars opt evaluator ls,
     GraphPropPredDataset "ogbg-molhiv" = Ok ogb_dataset /\
     OGB ogb_dataset = Ok dataset /\
     get_idx_split ogb_dataset = Ok idx /\
     getitem dataset (train idx) = Ok dataset_tr /\
     getitem dataset (test idx) = Ok dataset_te /\
     Model (n_node_features dataset) (n_edge_features dataset)
           (n_labels dataset) = Ok vars /\
     Adam (1 # 1000)%Q = Ok opt /\
     Evaluator "ogbg-molhiv" = Ok evaluator /\
     train_steps (batches (DisjointLoader shuffle dataset_tr 32 10))
       {| variables := vars; slots := opt |} = Some (ls, s') /\
     length (filter is_step_done tr)
       = 10 * n_batches 32 (length dataset_tr) /\
     length (filter is_eval_forward tr) = n_batches 32 (length dataset_te) /\
     length (printed_losses (stdout tr))
       = if n_batches 32 (length dataset_tr) =? 0 then 0 else 10).
Proof.
  intros H. do 4 (split; [reflexivity |]).
  split; [| split; [| split]].
  - unfold script in H. apply bind_inv in H.
    destruct H as [(ex & Hc & _) | (v & s1 & t1 & r1 & Hc & _ & ->)];
      apply call_inv in Hc; destruct Hc as (_ & _ & ->); eexists; reflexivity.
  - intros ex Hex. unfold script in H. apply bind_inv in H.
    destruct H as [(ex0 & Hc & ->) | (v & s1 & t1 & r1 & Hc & _ & _)];
      apply call_inv in Hc; destruct Hc as (_ & Hr & _);
      change dataset_name with "ogbg-molhiv" in Hr; congruence.
  - apply script_run in H.
    destruct H as (t_load & t_build & t_fit & t_eval
                   & -> & Hl & Hb & Hf & He & _).
    repeat (apply Forall_app; split).
    + eapply Forall_impl; [apply load_configured | assumption].
    + eapply Forall_impl; [apply build_configured | assumption].
    + eapply Forall_impl; [apply fit_configured | assumption].
    + eapply Forall_impl; [apply evaluate_configured | assumption].
  - intros ->. apply script_ok_inv in H.
    destruct H as (ogb & dataset & idx & dataset_tr & dataset_te & vars & opt
                   & r & t_fit & t_eval
                   & E1 & E2 & E3 & E4 & E5 & E6 & E7 & Hfit & Heval & ->).
    pose proof Hfit as Hsteps. apply fit_model_steps_done in Hsteps.
    pose proof Hfit as Hfev. apply fit_model_runs in Hfev.
    destruct Hfev as [Hfev _].
    pose proof Hfit as Hinv. apply fit_model_inv in Hinv.
    destruct Hinv as (ls & Hts & Hfout).
    pose proof Heval as Heev. apply evaluate_model_runs in Heev.
    destruct Heev as [Heev _].
    apply evaluate_model_inv in Heval.
    destruct Heval as (ev & ps & Yt & Yp & l & auc
                       & Eev & _ & _ & _ & _ & _ & _ & Hetr).
    assert (Hlen_tr :
              length (batches (DisjointLoader shuffle dataset_tr batch_size
                                 epochs))
              = epochs * n_batches batch_size (length dataset_tr))
      by (apply DisjointLoader_length; intros k; apply shuffle_perm).
    assert (Hlen_te :
              length (batches (DisjointLoader (fun k => shuffle (epochs + k))
                                 dataset_te batch_size 1))
              = 1 * n_batches batch_size (length dataset_te))
      by (apply DisjointLoader_length; intros k; apply shuffle_perm).
    exists ogb, dataset, idx, dataset_tr, dataset_te, vars, opt, ev, ls.
    do 8 (split; [assumption |]). split; [exact Hts |].
    unfold event in *.
    split; [| split].
    + rewrite !filter_app, !length_app.
      assert (Hnone : @filter (effect line libfn) is_step_done t_eval = [])
        by (eapply filter_none; [apply evaluate_no_step | exact Heev]).
      rewrite Hnone, Hsteps, Hlen_tr.
      unfold load_calls, build_calls. cbn [filter is_step_done length].
      change epochs with 10. change batch_size with 32. lia.
    + rewrite !filter_app, !length_app.
      assert (Hnone : @filter (effect line libfn) is_eval_forward t_fit = [])
        by (eapply filter_none; [apply fit_no_forward | exact Hfev]).
      rewrite Hnone, Hetr.
      match goal with
      | |- context [filter _ (?a :: ?b :: ?x ++ ?y)] =>
          change (a :: b :: x ++ y) with ([a; b] ++ x ++ y)
      end.
      rewrite !filter_app, filter_forward_calls, !length_app, repeat_length.
      rewrite Hlen_te.
      unfold load_calls, build_calls. cbn [filter is_eval_forward length].
      change batch_size with 32. lia.
    + assert (Hspe : steps_per_epoch
                       (DisjointLoader shuffle dataset_tr batch_size epochs)
                     = n_batches 32 (length dataset_tr)) by reflexivity.
      rewrite Hspe in Hfout.
      assert (Hls : length ls = 10 * n_batches 32 (length dataset_tr))
        by (rewrite (train_steps_length _ _ Hts), Hlen_tr; reflexivity).
      remember (n_batches 32 (length dataset_tr)) as k eqn:Ek.
      assert (Heout : stdout t_eval = [Text "Testing model"; DoneLine l auc]).
      { rewrite Hetr.
        match goal with
        | |- stdout (?a :: ?b :: ?x ++ ?y) = _ =>
            change (a :: b :: x ++ y) with ([a; b] ++ x ++ y)
        end.
        rewrite !stdout_app, stdout_calls. reflexivity. }
      rewrite !stdout_app, Hfout, Heout.
      change (stdout load_calls) with (@nil line).
      change (stdout build_calls) with (@nil line).
      simpl app. cbn [printed_losses].
      assert (Hpl : forall ms,
                 printed_losses
                   (map LossLine ms ++ [Text "Testing model"; DoneLine l auc])
                 = ms)
        by (induction ms as [| m ms IH]; simpl; [| rewrite IH]; reflexivity).
      rewrite Hpl. unfold epoch_means.
      rewrite length_map, length_seq, Hls.
      destruct k as [| k].
      * reflexivity.
      * rewrite Nat.div_mul by lia. reflexivity.
Qed.

Lemma getitem_length (dataset : Dataset elt) idx : forall d,
  getitem dataset idx = Ok d -> length d = length idx.
Proof.
  induction idx as [| i idx IH]; simpl; intros d H.
  - injection H as <-. reflexivity.
  - destruct (nth_error dataset i) as [g |]; [| discriminate].
    destruct (getitem dataset idx) as [gs | ex]; [| discriminate].
    injection H as <-. simpl. f_equal. apply IH. reflexivity.
Qed.

Lemma same_width_all (rows : list (Row elt)) n :
  Forall (fun r => length r = n) rows -> same_width rows = true.
Proof.
  intros H. destruct H as [| r rows Hr Hrows]; [reflexivity |].
  simpl. apply forallb_forall. intros r' Hin.
  rewrite Forall_forall in Hrows. rewrite (Hrows _ Hin), Hr.
  apply Nat.eqb_refl.
Qed.

Lemma vstack_ok (blocks : list (list (Row elt))) n :
  blocks <> [] ->
  Forall (fun r => length r = n) (concat blocks) ->
  vstack blocks = Ok (concat blocks).
Proof.
  intros Hne Hw. destruct blocks as [| b blocks]; [congruence |].
  unfold vstack. now rewrite (same_width_all Hw).
Qed.

(** The evaluation phase returns when all its calls do. *)
Lemma evaluate_model_ok loader_te s evaluator ps Y_true Y_pred l auc :
  Evaluator dataset_name = Ok evaluator ->
  predictions (variables s) (batches loader_te) = Some ps ->
  vstack (map snd (batches loader_te)) = Ok Y_true ->
  vstack ps = Ok Y_pred ->
  loss_fn Y_true Y_pred = Ok l ->
  eval evaluator Y_true Y_pred = Ok auc ->
  evaluate_model loader_te s =
    (Ok tt, s,
     Print (Text "Testing model")
       :: Call (FEvaluator dataset_name)
       :: repeat (Call (Fmodel false)) (length (batches loader_te))
       ++ [Call Fvstack; Call Fvstack; Call Floss_fn; Call Feval;
           Print (DoneLine l auc)]).
Proof.
  intros Hev Hps Hyt Hyp Hloss Hauc.
  unfold evaluate_model. cbv [bind print call].
  rewrite Hev, (eval_loop_ok _ s [] [] Hps). simpl app.
  rewrite Hyt, Hyp, Hloss, Hauc. reflexivity.
Qed.

(** C2.  For the test loader the script builds (one pass, [epochs=1])
    on a test split that is not empty, with labels of one width: when
    every forward pass of the evaluation loop returns a block with one
    row of that width for each target row, the loop appends one target
    block and one prediction block per test batch in the order of the
    batches and does not touch the model; both stacks exist and have the
    same number of rows; for the [r]-th graph of the [j]-th batch, the row
    at its place holds its label in [y_true] and row [r] of the model's
    prediction on that batch in [y_pred]; [y_true] holds the label of
    every test graph exactly once; and the evaluation phase returns,
    having computed the test loss and the metric on these two stacks. *)
Theorem evaluation_rows_aligned (dataset : Dataset elt) (idx : Split)
    (s0 s0' s : tf_state) (t0 : list event) (loader_tr loader_te : Loader elt)
    (ps : list (list (Row elt))) (n_out : nat)
    (evaluator : EvaluatorT) (l : Loss) (auc : Score) :
  train_test_split dataset idx s0 = (Ok (loader_tr, loader_te), s0', t0) ->
  test idx <> [] ->
  (forall g, In g dataset -> length (label g) = n_out) ->
  predictions (variables s) (batches loader_te) = Some ps ->
  Forall2 (fun b p => length p = length (snd b) /\
                      Forall (fun r => length r = n_out) p)
          (batches loader_te) ps ->
  Evaluator dataset_name = Ok evaluator ->
  loss_fn (concat (map snd (batches loader_te))) (concat ps) = Ok l ->
  eval evaluator (concat (map snd (batches loader_te))) (concat ps) = Ok auc ->
  exists dataset_te Y_true Y_pred,
    getitem dataset (test idx) = Ok dataset_te /\
    eval_loop (batches loader_te) [] [] s =
      (Ok (map snd (batches loader_te), ps), s,
       repeat (Call (Fmodel false)) (length (batches loader_te))) /\
    length ps = length (batches loader_te) /\
    vstack (map snd (batches loader_te)) = Ok Y_true /\
    vstack ps = Ok Y_pred /\
    evaluate_model loader_te s =
      (Ok tt, s,
       Print (Text "Testing model")
         :: Call (FEvaluator dataset_name)
         :: repeat (Call (Fmodel false)) (length (batches loader_te))
         ++ [Call Fvstack; Call Fvstack; Call Floss_fn; Call Feval;
             Print (DoneLine l auc)]) /\
    length Y_pred = length Y_true /\
    (forall j gs p r g,
        nth_error (slices batch_size (shuffle (epochs + 0) dataset_te)) j
          = Some gs ->
        nth_error ps j = Some p ->
        nth_error gs r = Some g ->
        model (variables s) false (fst (collate gs)) = Ok p /\
        nth_error Y_true (row_offset ps j + r) = Some (label g) /\
        nth_error Y_pred (row_offset ps j + r) = nth_error p r) /\
    Permutation Y_true (map (@label elt) dataset_te).
Proof.
  intros Hsplit Htest Hlab Hps Hshape Hev Hloss Hauc.
  apply train_test_split_ok in Hsplit.
  destruct Hsplit as (dataset_tr & dataset_va & dataset_te
                      & _ & _ & Ete & _ & -> & _).
  set (order := fun k => shuffle (epochs + k)) in *.
  set (loader_te := DisjointLoader order dataset_te batch_size 1) in *.
  assert (Hne : dataset_te <> []).
  { intros E. apply getitem_length in Ete. rewrite E in Ete.
    destruct (test idx); [congruence | discriminate]. }
  assert (Hpos : 0 < batch_size) by (unfold batch_size; lia).
  assert (Hbs : batches loader_te
                = map (@collate elt) (slices batch_size (order 0 dataset_te)))
    by (simpl; apply app_nil_r).
  set (sl := slices batch_size (order 0 dataset_te)) in *.
  assert (Hperm : Permutation (order 0 dataset_te) dataset_te)
    by apply shuffle_perm.
  assert (Hsl : sl <> []).
  { apply slices_nonempty; [assumption |]. intros E.
    rewrite E in Hperm. apply Permutation_nil in Hperm. congruence. }
  assert (Hlen : length ps = length (batches loader_te))
    by (eapply predictions_length, Hps).
  assert (Htargets : map snd (batches loader_te) = map (map (@label elt)) sl).
  { rewrite Hbs, map_map. reflexivity. }
  assert (Hstack : concat (map snd (batches loader_te))
                   = map (@label elt) (order 0 dataset_te)).
  { rewrite Htargets, <- concat_map. unfold sl.
    now rewrite concat_slices by assumption. }
  assert (Hrows : Forall2 (fun a b => length b = length a)
                    (map snd (batches loader_te)) ps).
  { clear - Hshape. induction Hshape as [| b p bs ps' [Hb _] _ IH];
      simpl; constructor; auto. }
  assert (Hwp : Forall (fun r => length r = n_out) (concat ps)).
  { clear - Hshape. induction Hshape as [| b p bs ps' [_ Hw] _ IH];
      simpl; [constructor | apply Forall_app; auto]. }
  assert (Hwt : Forall (fun r => length r = n_out)
                  (concat (map snd (batches loader_te)))).
  { rewrite Hstack. apply Forall_forall. intros r Hr.
    apply in_map_iff in Hr. destruct Hr as (g & <- & Hg).
    apply Hlab. eapply getitem_incl; [exact Ete |].
    eapply Permutation_in; [exact Hperm | exact Hg]. }
  assert (Hyt : vstack (map snd (batches loader_te))
                = Ok (concat (map snd (batches loader_te)))).
  { apply vstack_ok with (n := n_out); [| exact Hwt].
    rewrite Htargets. destruct sl; [congruence | discriminate]. }
  assert (Hyp : vstack ps = Ok (concat ps)).
  { apply vstack_ok with (n := n_out); [| exact Hwp].
    intros E. rewrite E, Hbs, length_map in Hlen.
    destruct sl; [congruence | discriminate]. }
  exists dataset_te, (concat (map snd (batches loader_te))), (concat ps).
  split; [exact Ete |].
  split; [rewrite (eval_loop_ok _ s [] [] Hps); reflexivity |].
  split; [exact Hlen |]. split; [exact Hyt |]. split; [exact Hyp |].
  split; [eapply evaluate_model_ok; eassumption |].
  split; [apply concat_length_same; exact Hrows |].
  split.
  - intros j gs p r g Hj Hp Hg.
    assert (Hb : nth_error (batches loader_te) j = Some (collate gs))
      by (rewrite Hbs; apply map_nth_error; exact Hj).
    assert (Hrow : length p = length gs).
    { pose proof (Forall2_nth_error Hshape _ Hb Hp) as [H _]. simpl in H.
      now rewrite length_map in H. }
    assert (Hr : r < length gs) by (apply nth_error_Some; congruence).
    assert (Hoff : row_offset (map snd (batches loader_te)) j = row_offset ps j)
      by (apply row_offset_same; exact Hrows).
    split; [| split].
    + eapply predictions_nth; [exact Hps | exact Hb | exact Hp].
    + rewrite <- Hoff.
      rewrite (@nth_error_concat _ _ j (map (@label elt) gs) r).
      * apply map_nth_error. exact Hg.
      * rewrite Htargets. apply map_nth_error. exact Hj.
      * rewrite length_map. exact Hr.
    + apply nth_error_concat; [exact Hp | lia].
  - rewrite Hstack. apply Permutation_map. exact Hperm.
Qed.

(** X1.  A training step that raises prints nothing and ends with its
    exception.  If it raised in the forward pass, in the loss or in the
    gradient, [apply_gradients] was never called and the model and the
    optimizer are as they were; if [apply_gradients] was called, the
    three calls before it had returned and the exception is the one
    [apply_gradients] raised. *)
Theorem train_step_failure_before_update batch s ex s' tr :
  train_step batch s = (Raise ex, s', tr) ->
  stdout tr = [] /\
  (exists pre, tr = pre ++ [Raised ex]) /\
  (~ In (Call Fapply_gradients) tr -> s' = s) /\
  (In (Call Fapply_gradients) tr ->
   exists p l g,
     model (variables s) true (fst batch) = Ok p /\
     loss_fn (snd batch) p = Ok l /\
     gradient (variables s) (fst batch) (snd batch) = Ok g /\
     apply_gradients (slots s) (variables s) g = Raise ex).
Proof.
  intros H.
  assert (Hquiet : stdout tr = []) by (apply train_step_run in H; tauto).
  assert (Hlast : exists pre, tr = pre ++ [Raised ex]).
  { pose proof H as Hr. apply train_step_runs in Hr.
    destruct Hr as [_ (pre & -> & _)]. exists pre. reflexivity. }
  split; [exact Hquiet |]. split; [exact Hlast |].
  destruct batch as [inputs target]. unfold train_step in H.
  run_inv H; subst; simpl.
  - split; [reflexivity |]. intros [E | [E | []]]; discriminate.
  - split; [reflexivity |]. intros [E | [E | [E | []]]]; discriminate.
  - split; [reflexivity |].
    intros [E | [E | [E | [E | []]]]]; discriminate.
  - split; [reflexivity |]. intros _.
    match goal with
    | E : Raise _ = Raise _ |- _ => injection E as ->
    end.
    eauto 10.
Qed.

End ScriptRuns.

(** ** The order of the phases, the hyper-parameters and the test rows
       at work on the small implementation *)

Lemma evaluation_rows_aligned_witness :
  exists Y_true Y_pred : list (Row Z),
    length Y_pred = length Y_true /\
    nth_error Y_true 35 = Some (label (Toy.molecule 35)) /\
    nth_error Y_pred 35 = Some [3%Z] /\
    Permutation Y_true (map (@label Z) Toy.crowd).
Proof.
  destruct (@evaluation_rows_aligned Toy.libs Toy.crowd
              {| train := [0]; valid := []; test := seq 0 40 |}
              Toy.init Toy.init Toy.init
              [Call Fgetitem; Call Fgetitem; Call Fgetitem;
               Call (FDisjointLoader 32 10); Call (FDisjointLoader 32 1)]
              (DisjointLoader Toy.flip [Toy.molecule 0] 32 10)
              (DisjointLoader (fun k => Toy.flip (10 + k)) Toy.crowd 32 1)
              [map (fun k => [Z.of_nat k]) (seq 0 32);
               map (fun k => [Z.of_nat k]) (seq 0 8)]
              1 tt 524%Z (1 # 2)%Q)
    as (dataset_te & Y_true & Y_pred
        & Ete & _ & _ & _ & _ & _ & Hlen & Halign & Hperm).
  - vm_compute. reflexivity.
  - simpl. discriminate.
  - intros g Hg. apply in_map_iff in Hg. destruct Hg as (k & <- & _).
    reflexivity.
  - vm_compute. reflexivity.
  - vm_compute. repeat constructor.
  - reflexivity.
  - vm_compute. reflexivity.
  - reflexivity.
  - vm_compute in Ete. injection Ete as <-.
    destruct (Halign 1
                (map (fun k => Toy.molecule (Z.of_nat k)) (seq 32 8))
                (map (fun k => [Z.of_nat k]) (seq 0 8))
                3 (Toy.molecule 35)) as (_ & Ht & Hp);
      [vm_compute; reflexivity | reflexivity | reflexivity |].
    exists Y_true, Y_pred.
    split; [exact Hlen |]. split; [exact Ht |]. split; [exact Hp |].
    exact Hperm.
Defined.


Lemma hyperparameters_fixed_witness :
  length (filter (@is_step_done Toy.libs) (snd (@script Toy.libs Toy.init)))
    = 10 /\
  length (@printed_losses Toy.libs (stdout (snd (@script Toy.libs Toy.init))))
    = 10.
Proof.
  destruct (@hyperparameters_fixed Toy.libs Toy.init (Ok tt)
              (@mk_tf Toy.libs (-2)%Z 10)
              (snd (@script Toy.libs Toy.init)))
    as (_ & _ & _ & _ & _ & _ & _ & Hok).
  - vm_compute. reflexivity.
  - destruct (Hok eq_refl)
      as (ogb & dataset & idx & dataset_tr & dataset_te & vars & opt & ev & ls
          & E1 & E2 & E3 & E4 & _ & _ & _ & _ & _ & Hsteps & _ & Hprinted).
    injection E1 as <-. injection E2 as <-. injection E3 as <-.
    injection E4 as <-.
    split; [exact Hsteps | exact Hprinted].
Defined.

Lemma batches_are_disjoint_unions_witness :
  I_in (fst (collate (firstn 3 Toy.molecules))) = [0; 0; 1; 1; 2; 2] /\
  entries (A_in (fst (collate (firstn 3 Toy.molecules))))
    = [(0, 1, 1%Z); (1, 0, 1%Z); (2, 3, 1%Z); (3, 2, 1%Z);
       (4, 5, 1%Z); (5, 4, 1%Z)] /\
  exists gs : list (Graph Z),
    collate (firstn 3 Toy.molecules) = collate gs /\
    1 <= length gs <= 32 /\
    incl gs Toy.molecules /\
    disjoint_union gs (collate (firstn 3 Toy.molecules)).
Proof.
  split; [reflexivity |]. split; [reflexivity |].
  apply (@batches_are_disjoint_unions Toy.libs Toy.molecules
           {| train := [0; 1; 2]; valid := [3]; test := [4] |}
           Toy.init
           (DisjointLoader Toy.flip (firstn 3 Toy.molecules) 32 10)
           (DisjointLoader (fun k => Toy.flip (10 + k)) [Toy.molecule 4] 32 1)
           Toy.init
           [Call Fgetitem; Call Fgetitem; Call Fgetitem;
            Call (FDisjointLoader 32 10); Call (FDisjointLoader 32 1)]).
  - repeat constructor; simpl; lia.
  - reflexivity.
  - left. simpl. left. reflexivity.
Defined.

Lemma train_step_failure_before_update_witness :
  snd (fst (@train_step Toy.libs (fst (collate [Toy.molecule 0]), [])
              Toy.init))
  = Toy.init.
Proof.
  destruct (@train_step_failure_before_update Toy.libs
              (fst (collate [Toy.molecule 0]), []) Toy.init
              (LibraryError "shapes differ")
              (snd (fst (@train_step Toy.libs
                           (fst (collate [Toy.molecule 0]), []) Toy.init)))
              (snd (@train_step Toy.libs
                      (fst (collate [Toy.molecule 0]), []) Toy.init)))
    as (_ & _ & H & _).
  - vm_compute. reflexivity.
  - apply H. vm_compute. intros [E | [E | [E | []]]]; discriminate.
Defined.
